(** * The "create VM" dialog of the machines page: draft state, update rule,
      validation and submission

    Shallow embedding of [pkg/machines/components/create-vm-dialog/createVmDialog.jsx]:
    [validateParams], [CreateVmModal.onValueChanged] and
    [CreateVmModal.onCreateClicked], with the helpers they call.

    Conventions of the embedding.
    - A JavaScript string is its sequence of UTF-16 code units ([jsstring]).
    - A JavaScript number is an exact rational ([Qc]); the dialog only scales
      numbers by powers of 1024, rounds them down and compares them, which
      binary floating point does exactly short of overflow. NaN and the
      infinities are not values of the model.
    - [undefined] / [null] are [None].
    - A thrown [TypeError] is the [TypeError] outcome.
    - [this.setState(delta)] inside a handler is batched by React: the
      handler keeps reading the state it started with ([this.state]) while
      the deltas are merged, in order, into the state that is rendered next.
      [onValueChanged] therefore takes both: the state it reads and the
      pending state it writes. *)

From Stdlib Require Import QArith Qcanon Qround.
From stdpp Require Import base numbers list strings gmap sorting.

Local Open Scope Z_scope.

(** ** JavaScript strings *)

Abbreviation code_unit := N (only parsing).
Abbreviation jsstring := (list N) (only parsing).

(** A string literal of the source, as code units. *)
Definition lit (s : string) : jsstring :=
  Ascii.N_of_ascii <$> String.list_ascii_of_string s.

(** WhiteSpace and LineTerminator code units, the ones
    [String.prototype.trim] strips. *)
Definition isWhiteSpace (c : code_unit) : bool :=
  bool_decide (c ∈ [9; 10; 11; 12; 13; 32; 160; 5760; 8232; 8233; 8239;
                    8287; 12288; 65279]%N)
  || ((8192 <=? c)%N && (c <=? 8202)%N).

Fixpoint trimStart (s : jsstring) : jsstring :=
  match s with
  | c :: s' => if isWhiteSpace c then trimStart s' else s
  | [] => []
  end.

Definition trimEnd (s : jsstring) : jsstring :=
  reverse (trimStart (reverse s)).

(** [s.trim()] *)
Definition trim (s : jsstring) : jsstring := trimEnd (trimStart s).

(** [s.startsWith(p)] *)
Fixpoint startsWith (s p : jsstring) : bool :=
  match p, s with
  | [], _ => true
  | _ :: _, [] => false
  | a :: p', c :: s' => (c =? a)%N && startsWith s' p'
  end.

(** [s.includes(p)] *)
Fixpoint includes (s p : jsstring) : bool :=
  startsWith s p ||
  match s with
  | [] => false
  | _ :: s' => includes s' p
  end.

(** [s.split(sep)] for a separator of one code unit. *)
Fixpoint split (sep : code_unit) (s : jsstring) : list jsstring :=
  match s with
  | [] => [[]]
  | c :: s' =>
      if (c =? sep)%N then [] :: split sep s'
      else match split sep s' with
           | w :: ws => (c :: w) :: ws
           | [] => [[c]]
           end
  end.

(** [parts.join(sep)] *)
Fixpoint join (sep : jsstring) (parts : list jsstring) : jsstring :=
  match parts with
  | [] => []
  | [w] => w
  | w :: ws => w ++ sep ++ join sep ws
  end.

(** Strict equality of two strings. *)
Definition str_eqb (a b : jsstring) : bool := bool_decide (a = b).

(** Truthiness of a string that may be [undefined]: defined and not empty. *)
Definition truthy_str (s : option jsstring) : bool :=
  match s with
  | Some (_ :: _) => true
  | _ => false
  end.

(** ** JavaScript numbers *)

Local Open Scope Qc_scope.

(** [Math.floor] *)
Definition Math_floor (x : Qc) : Qc := Qc_of_Z (Qfloor x).

(** [Math.min] and [Math.max] of two numbers *)
Definition Math_min (x y : Qc) : Qc := if bool_decide (x ≤ y) then x else y.
Definition Math_max (x y : Qc) : Qc := if bool_decide (x ≤ y) then y else x.

(** Truthiness of a number that may be [undefined]: defined and not zero. *)
Definition truthy_num (x : option Qc) : bool :=
  match x with
  | Some q => negb (bool_decide (q = 0))
  | None => false
  end.

(** ** Messages

    A failure reason is built by [cockpit.gettext] and [cockpit.format]. The
    translation of the message and the rendering of its arguments depend on
    the locale, so a message is kept as its untranslated text with the
    arguments handed to [cockpit.format], in order. *)

Inductive format_arg : Type :=
| ArgString (s : jsstring)
| ArgNumber (x : Qc).

Record message : Type := Message { msgid : string; msgargs : list format_arg }.

(** [_("text")] *)
Definition gettext (text : string) : message := Message text [].

(** [cockpit.format(_("text"), args...)] *)
Definition cockpit_format (fmt : message) (args : list format_arg) : message :=
  Message (msgid fmt) args.

(** ** Outcomes of a call *)

Inductive outcome (A : Type) : Type :=
| Returned (a : A)
| TypeError.
Arguments Returned {A} a.
Arguments TypeError {A}.

#[global] Instance outcome_ret : MRet outcome := fun _ a => Returned a.
#[global] Instance outcome_bind : MBind outcome := fun _ _ k m =>
  match m with
  | Returned a => k a
  | TypeError => TypeError
  end.

(** ** Helpers imported from [helpers.js] *)

(** Modelled from the spec: [units] of [helpers.js], which is not among the
    sources. The spec fixes the ladder: bytes, KiB, MiB, GiB, each step a
    factor of 1024 ("base-2 byte multiples"). *)
Module units.
Inductive t : Set := B | KiB | MiB | GiB.

#[global] Instance eq_dec : EqDecision t.
Proof. solve_decision. Defined.

Definition name (u : t) : jsstring :=
  match u with
  | B => lit "B"
  | KiB => lit "KiB"
  | MiB => lit "MiB"
  | GiB => lit "GiB"
  end.

Definition base1024Exponent (u : t) : Z :=
  match u with
  | B => 0
  | KiB => 1
  | MiB => 2
  | GiB => 3
  end.

(** Size of one unit in bytes. *)
Definition bytes (u : t) : Qc := Qc_of_Z (1024 ^ base1024Exponent u).
End units.

(** Modelled from the spec: [convertToUnit] of [helpers.js], which is not
    among the sources. The spec calls it a "pure proportional conversion"
    over the unit ladder: the value is scaled by the ratio of the two units. *)
Definition convertToUnit (input : Qc) (inputUnit outputUnit : units.t) : Qc :=
  input * units.bytes inputUnit / units.bytes outputUnit.

(** Modelled from the spec: [isEmpty] of [helpers.js], which is not among the
    sources. It is applied to a trimmed string or to [null]; "empty" is a
    missing string or one of length zero. *)
Definition isEmpty (str : option jsstring) : bool :=
  match str with
  | None => true
  | Some s => bool_decide (length s = 0%nat)
  end.

(** Modelled from the spec: the two connection scopes, constants of
    [helpers.js]. The session one is also spelled out at the
    installation-type selector of the dialog. *)
Definition LIBVIRT_SYSTEM_CONNECTION : jsstring := lit "system".
Definition LIBVIRT_SESSION_CONNECTION : jsstring := lit "session".

(** ** Constants of the dialog *)

Definition URL_SOURCE : jsstring := lit "url".
Definition LOCAL_INSTALL_MEDIA_SOURCE : jsstring := lit "file".
Definition DOWNLOAD_AN_OS : jsstring := lit "os".
Definition EXISTING_DISK_IMAGE_SOURCE : jsstring := lit "disk_image".
Definition PXE_SOURCE : jsstring := lit "pxe".

(** ** Data supplied by the page *)

(** [cockpit.permission({ admin: true })]: the user is [null] until the
    session's user record has been loaded. *)
Record User : Type := { user_name : jsstring; user_home : jsstring }.
Record Permission : Type := { user : option User }.

Record Resources : Type := { ram : option Qc; storage : option Qc }.

(** An entry of the OS catalogue. *)
Record OsInfo : Type := {
  os_id : jsstring;
  shortId : jsstring;
  minimumResources : Resources;
  recommendedResources : Resources;
  profiles : option (list jsstring);
  unattendedInstallable : bool;
}.

Record Vm : Type := { vm_name : jsstring; vm_connectionName : jsstring }.

Record Volume : Type := { volume_name : jsstring }.

Record StoragePool : Type := {
  pool_connectionName : jsstring;
  pool_name : jsstring;
  pool_target_path : jsstring;
  pool_available : Qc;
  pool_volumes : option (list Volume);
}.

Record Network : Type := {
  network_connectionName : jsstring;
  network_name : jsstring;
}.

Record NodeDevice : Type := {
  device_connectionName : jsstring;
  capability_type : jsstring;
  capability_interface : jsstring;
}.

(** The props of [CreateVmModal] that the handlers read. *)
Record Props : Type := {
  nodeMaxMemory : Qc;
  nodeDevices : list NodeDevice;
  networks : list Network;
  storagePools : list StoragePool;
  props_vms : list Vm;
  osInfoList : list OsInfo;
}.

#[global] Instance Resources_eq_dec : EqDecision Resources.
Proof. solve_decision. Defined.
#[global] Instance OsInfo_eq_dec : EqDecision OsInfo.
Proof. solve_decision. Defined.
#[global] Instance Vm_eq_dec : EqDecision Vm.
Proof. solve_decision. Defined.

(** ** The draft: the state of [CreateVmModal]

    The fields of [this.state] as the constructor lists them, then the two
    that only [onValueChanged] adds ([profile], [sourceMediaID]). [os],
    [source], [storageVolume], the recommended resources and the two added
    fields may be [undefined]. *)
Record State : Type := {
  inProgress : bool;
  validate : bool;
  vmName : jsstring;
  connectionName : jsstring;
  sourceType : jsstring;
  unattendedInstallation : bool;
  source : option jsstring;
  os : option OsInfo;
  memorySize : Qc;
  memorySizeUnit : units.t;
  storageSize : Qc;
  storageSizeUnit : units.t;
  storagePool : jsstring;
  storageVolume : option jsstring;
  startVm : bool;
  recommendedMemory : option Qc;
  minimumMemory : Qc;
  recommendedStorage : option Qc;
  minimumStorage : Qc;
  userPassword : jsstring;
  rootPassword : jsstring;
  profile : option jsstring;
  sourceMediaID : option jsstring;
}.

(** Field updates. [this.setState({ f: v })] is [setState (set_f v)]; a
    delta with several keys is the composition of their updates. *)
Definition set_inProgress (v : bool) (s : State) : State :=
  {| inProgress := v; validate := validate s; vmName := vmName s;
     connectionName := connectionName s; sourceType := sourceType s;
     unattendedInstallation := unattendedInstallation s; source := source s;
     os := os s; memorySize := memorySize s; memorySizeUnit :=
     memorySizeUnit s; storageSize := storageSize s; storageSizeUnit :=
     storageSizeUnit s; storagePool := storagePool s; storageVolume :=
     storageVolume s; startVm := startVm s; recommendedMemory :=
     recommendedMemory s; minimumMemory := minimumMemory s;
     recommendedStorage := recommendedStorage s; minimumStorage :=
     minimumStorage s; userPassword := userPassword s; rootPassword :=
     rootPassword s; profile := profile s; sourceMediaID := sourceMediaID s
     |}.
Definition set_validate (v : bool) (s : State) : State :=
  {| inProgress := inProgress s; validate := v; vmName := vmName s;
     connectionName := connectionName s; sourceType := sourceType s;
     unattendedInstallation := unattendedInstallation s; source := source s;
     os := os s; memorySize := memorySize s; memorySizeUnit :=
     memorySizeUnit s; storageSize := storageSize s; storageSizeUnit :=
     storageSizeUnit s; storagePool := storagePool s; storageVolume :=
     storageVolume s; startVm := startVm s; recommendedMemory :=
     recommendedMemory s; minimumMemory := minimumMemory s;
     recommendedStorage := recommendedStorage s; minimumStorage :=
     minimumStorage s; userPassword := userPassword s; rootPassword :=
     rootPassword s; profile := profile s; sourceMediaID := sourceMediaID s
     |}.
Definition set_vmName (v : jsstring) (s : State) : State :=
  {| inProgress := inProgress s; validate := validate s; vmName := v;
     connectionName := connectionName s; sourceType := sourceType s;
     unattendedInstallation := unattendedInstallation s; source := source s;
     os := os s; memorySize := memorySize s; memorySizeUnit :=
     memorySizeUnit s; storageSize := storageSize s; storageSizeUnit :=
     storageSizeUnit s; storagePool := storagePool s; storageVolume :=
     storageVolume s; startVm := startVm s; recommendedMemory :=
     recommendedMemory s; minimumMemory := minimumMemory s;
     recommendedStorage := recommendedStorage s; minimumStorage :=
     minimumStorage s; userPassword := userPassword s; rootPassword :=
     rootPassword s; profile := profile s; sourceMediaID := sourceMediaID s
     |}.
Definition set_connectionName (v : jsstring) (s : State) : State :=
  {| inProgress := inProgress s; validate := validate s; vmName := vmName s;
     connectionName := v; sourceType := sourceType s; unattendedInstallation
     := unattendedInstallation s; source := source s; os := os s; memorySize
     := memorySize s; memorySizeUnit := memorySizeUnit s; storageSize :=
     storageSize s; storageSizeUnit := storageSizeUnit s; storagePool :=
     storagePool s; storageVolume := storageVolume s; startVm := startVm s;
     recommendedMemory := recommendedMemory s; minimumMemory :=
     minimumMemory s; recommendedStorage := recommendedStorage s;
     minimumStorage := minimumStorage s; userPassword := userPassword s;
     rootPassword := rootPassword s; profile := profile s; sourceMediaID :=
     sourceMediaID s |}.
Definition set_sourceType (v : jsstring) (s : State) : State :=
  {| inProgress := inProgress s; validate := validate s; vmName := vmName s;
     connectionName := connectionName s; sourceType := v;
     unattendedInstallation := unattendedInstallation s; source := source s;
     os := os s; memorySize := memorySize s; memorySizeUnit :=
     memorySizeUnit s; storageSize := storageSize s; storageSizeUnit :=
     storageSizeUnit s; storagePool := storagePool s; storageVolume :=
     storageVolume s; startVm := startVm s; recommendedMemory :=
     recommendedMemory s; minimumMemory := minimumMemory s;
     recommendedStorage := recommendedStorage s; minimumStorage :=
     minimumStorage s; userPassword := userPassword s; rootPassword :=
     rootPassword s; profile := profile s; sourceMediaID := sourceMediaID s
     |}.
Definition set_unattendedInstallation (v : bool) (s : State) : State :=
  {| inProgress := inProgress s; validate := validate s; vmName := vmName s;
     connectionName := connectionName s; sourceType := sourceType s;
     unattendedInstallation := v; source := source s; os := os s; memorySize
     := memorySize s; memorySizeUnit := memorySizeUnit s; storageSize :=
     storageSize s; storageSizeUnit := storageSizeUnit s; storagePool :=
     storagePool s; storageVolume := storageVolume s; startVm := startVm s;
     recommendedMemory := recommendedMemory s; minimumMemory :=
     minimumMemory s; recommendedStorage := recommendedStorage s;
     minimumStorage := minimumStorage s; userPassword := userPassword s;
     rootPassword := rootPassword s; profile := profile s; sourceMediaID :=
     sourceMediaID s |}.
Definition set_source (v : option jsstring) (s : State) : State :=
  {| inProgress := inProgress s; validate := validate s; vmName := vmName s;
     connectionName := connectionName s; sourceType := sourceType s;
     unattendedInstallation := unattendedInstallation s; source := v; os :=
     os s; memorySize := memorySize s; memorySizeUnit := memorySizeUnit s;
     storageSize := storageSize s; storageSizeUnit := storageSizeUnit s;
     storagePool := storagePool s; storageVolume := storageVolume s; startVm
     := startVm s; recommendedMemory := recommendedMemory s; minimumMemory
     := minimumMemory s; recommendedStorage := recommendedStorage s;
     minimumStorage := minimumStorage s; userPassword := userPassword s;
     rootPassword := rootPassword s; profile := profile s; sourceMediaID :=
     sourceMediaID s |}.
Definition set_os (v : option OsInfo) (s : State) : State :=
  {| inProgress := inProgress s; validate := validate s; vmName := vmName s;
     connectionName := connectionName s; sourceType := sourceType s;
     unattendedInstallation := unattendedInstallation s; source := source s;
     os := v; memorySize := memorySize s; memorySizeUnit := memorySizeUnit
     s; storageSize := storageSize s; storageSizeUnit := storageSizeUnit s;
     storagePool := storagePool s; storageVolume := storageVolume s; startVm
     := startVm s; recommendedMemory := recommendedMemory s; minimumMemory
     := minimumMemory s; recommendedStorage := recommendedStorage s;
     minimumStorage := minimumStorage s; userPassword := userPassword s;
     rootPassword := rootPassword s; profile := profile s; sourceMediaID :=
     sourceMediaID s |}.
Definition set_memorySize (v : Qc) (s : State) : State :=
  {| inProgress := inProgress s; validate := validate s; vmName := vmName s;
     connectionName := connectionName s; sourceType := sourceType s;
     unattendedInstallation := unattendedInstallation s; source := source s;
     os := os s; memorySize := v; memorySizeUnit := memorySizeUnit s;
     storageSize := storageSize s; storageSizeUnit := storageSizeUnit s;
     storagePool := storagePool s; storageVolume := storageVolume s; startVm
     := startVm s; recommendedMemory := recommendedMemory s; minimumMemory
     := minimumMemory s; recommendedStorage := recommendedStorage s;
     minimumStorage := minimumStorage s; userPassword := userPassword s;
     rootPassword := rootPassword s; profile := profile s; sourceMediaID :=
     sourceMediaID s |}.
Definition set_memorySizeUnit (v : units.t) (s : State) : State :=
  {| inProgress := inProgress s; validate := validate s; vmName := vmName s;
     connectionName := connectionName s; sourceType := sourceType s;
     unattendedInstallation := unattendedInstallation s; source := source s;
     os := os s; memorySize := memorySize s; memorySizeUnit := v;
     storageSize := storageSize s; storageSizeUnit := storageSizeUnit s;
     storagePool := storagePool s; storageVolume := storageVolume s; startVm
     := startVm s; recommendedMemory := recommendedMemory s; minimumMemory
     := minimumMemory s; recommendedStorage := recommendedStorage s;
     minimumStorage := minimumStorage s; userPassword := userPassword s;
     rootPassword := rootPassword s; profile := profile s; sourceMediaID :=
     sourceMediaID s |}.
Definition set_storageSize (v : Qc) (s : State) : State :=
  {| inProgress := inProgress s; validate := validate s; vmName := vmName s;
     connectionName := connectionName s; sourceType := sourceType s;
     unattendedInstallation := unattendedInstallation s; source := source s;
     os := os s; memorySize := memorySize s; memorySizeUnit :=
     memorySizeUnit s; storageSize := v; storageSizeUnit := storageSizeUnit
     s; storagePool := storagePool s; storageVolume := storageVolume s;
     startVm := startVm s; recommendedMemory := recommendedMemory s;
     minimumMemory := minimumMemory s; recommendedStorage :=
     recommendedStorage s; minimumStorage := minimumStorage s; userPassword
     := userPassword s; rootPassword := rootPassword s; profile := profile
     s; sourceMediaID := sourceMediaID s |}.
Definition set_storageSizeUnit (v : units.t) (s : State) : State :=
  {| inProgress := inProgress s; validate := validate s; vmName := vmName s;
     connectionName := connectionName s; sourceType := sourceType s;
     unattendedInstallation := unattendedInstallation s; source := source s;
     os := os s; memorySize := memorySize s; memorySizeUnit :=
     memorySizeUnit s; storageSize := storageSize s; storageSizeUnit := v;
     storagePool := storagePool s; storageVolume := storageVolume s; startVm
     := startVm s; recommendedMemory := recommendedMemory s; minimumMemory
     := minimumMemory s; recommendedStorage := recommendedStorage s;
     minimumStorage := minimumStorage s; userPassword := userPassword s;
     rootPassword := rootPassword s; profile := profile s; sourceMediaID :=
     sourceMediaID s |}.
Definition set_storagePool (v : jsstring) (s : State) : State :=
  {| inProgress := inProgress s; validate := validate s; vmName := vmName s;
     connectionName := connectionName s; sourceType := sourceType s;
     unattendedInstallation := unattendedInstallation s; source := source s;
     os := os s; memorySize := memorySize s; memorySizeUnit :=
     memorySizeUnit s; storageSize := storageSize s; storageSizeUnit :=
     storageSizeUnit s; storagePool := v; storageVolume := storageVolume s;
     startVm := startVm s; recommendedMemory := recommendedMemory s;
     minimumMemory := minimumMemory s; recommendedStorage :=
     recommendedStorage s; minimumStorage := minimumStorage s; userPassword
     := userPassword s; rootPassword := rootPassword s; profile := profile
     s; sourceMediaID := sourceMediaID s |}.
Definition set_storageVolume (v : option jsstring) (s : State) : State :=
  {| inProgress := inProgress s; validate := validate s; vmName := vmName s;
     connectionName := connectionName s; sourceType := sourceType s;
     unattendedInstallation := unattendedInstallation s; source := source s;
     os := os s; memorySize := memorySize s; memorySizeUnit :=
     memorySizeUnit s; storageSize := storageSize s; storageSizeUnit :=
     storageSizeUnit s; storagePool := storagePool s; storageVolume := v;
     startVm := startVm s; recommendedMemory := recommendedMemory s;
     minimumMemory := minimumMemory s; recommendedStorage :=
     recommendedStorage s; minimumStorage := minimumStorage s; userPassword
     := userPassword s; rootPassword := rootPassword s; profile := profile
     s; sourceMediaID := sourceMediaID s |}.
Definition set_startVm (v : bool) (s : State) : State :=
  {| inProgress := inProgress s; validate := validate s; vmName := vmName s;
     connectionName := connectionName s; sourceType := sourceType s;
     unattendedInstallation := unattendedInstallation s; source := source s;
     os := os s; memorySize := memorySize s; memorySizeUnit :=
     memorySizeUnit s; storageSize := storageSize s; storageSizeUnit :=
     storageSizeUnit s; storagePool := storagePool s; storageVolume :=
     storageVolume s; startVm := v; recommendedMemory := recommendedMemory
     s; minimumMemory := minimumMemory s; recommendedStorage :=
     recommendedStorage s; minimumStorage := minimumStorage s; userPassword
     := userPassword s; rootPassword := rootPassword s; profile := profile
     s; sourceMediaID := sourceMediaID s |}.
Definition set_recommendedMemory (v : option Qc) (s : State) : State :=
  {| inProgress := inProgress s; validate := validate s; vmName := vmName s;
     connectionName := connectionName s; sourceType := sourceType s;
     unattendedInstallation := unattendedInstallation s; source := source s;
     os := os s; memorySize := memorySize s; memorySizeUnit :=
     memorySizeUnit s; storageSize := storageSize s; storageSizeUnit :=
     storageSizeUnit s; storagePool := storagePool s; storageVolume :=
     storageVolume s; startVm := startVm s; recommendedMemory := v;
     minimumMemory := minimumMemory s; recommendedStorage :=
     recommendedStorage s; minimumStorage := minimumStorage s; userPassword
     := userPassword s; rootPassword := rootPassword s; profile := profile
     s; sourceMediaID := sourceMediaID s |}.
Definition set_minimumMemory (v : Qc) (s : State) : State :=
  {| inProgress := inProgress s; validate := validate s; vmName := vmName s;
     connectionName := connectionName s; sourceType := sourceType s;
     unattendedInstallation := unattendedInstallation s; source := source s;
     os := os s; memorySize := memorySize s; memorySizeUnit :=
     memorySizeUnit s; storageSize := storageSize s; storageSizeUnit :=
     storageSizeUnit s; storagePool := storagePool s; storageVolume :=
     storageVolume s; startVm := startVm s; recommendedMemory :=
     recommendedMemory s; minimumMemory := v; recommendedStorage :=
     recommendedStorage s; minimumStorage := minimumStorage s; userPassword
     := userPassword s; rootPassword := rootPassword s; profile := profile
     s; sourceMediaID := sourceMediaID s |}.
Definition set_recommendedStorage (v : option Qc) (s : State) : State :=
  {| inProgress := inProgress s; validate := validate s; vmName := vmName s;
     connectionName := connectionName s; sourceType := sourceType s;
     unattendedInstallation := unattendedInstallation s; source := source s;
     os := os s; memorySize := memorySize s; memorySizeUnit :=
     memorySizeUnit s; storageSize := storageSize s; storageSizeUnit :=
     storageSizeUnit s; storagePool := storagePool s; storageVolume :=
     storageVolume s; startVm := startVm s; recommendedMemory :=
     recommendedMemory s; minimumMemory := minimumMemory s;
     recommendedStorage := v; minimumStorage := minimumStorage s;
     userPassword := userPassword s; rootPassword := rootPassword s; profile
     := profile s; sourceMediaID := sourceMediaID s |}.
Definition set_minimumStorage (v : Qc) (s : State) : State :=
  {| inProgress := inProgress s; validate := validate s; vmName := vmName s;
     connectionName := connectionName s; sourceType := sourceType s;
     unattendedInstallation := unattendedInstallation s; source := source s;
     os := os s; memorySize := memorySize s; memorySizeUnit :=
     memorySizeUnit s; storageSize := storageSize s; storageSizeUnit :=
     storageSizeUnit s; storagePool := storagePool s; storageVolume :=
     storageVolume s; startVm := startVm s; recommendedMemory :=
     recommendedMemory s; minimumMemory := minimumMemory s;
     recommendedStorage := recommendedStorage s; minimumStorage := v;
     userPassword := userPassword s; rootPassword := rootPassword s; profile
     := profile s; sourceMediaID := sourceMediaID s |}.
Definition set_userPassword (v : jsstring) (s : State) : State :=
  {| inProgress := inProgress s; validate := validate s; vmName := vmName s;
     connectionName := connectionName s; sourceType := sourceType s;
     unattendedInstallation := unattendedInstallation s; source := source s;
     os := os s; memorySize := memorySize s; memorySizeUnit :=
     memorySizeUnit s; storageSize := storageSize s; storageSizeUnit :=
     storageSizeUnit s; storagePool := storagePool s; storageVolume :=
     storageVolume s; startVm := startVm s; recommendedMemory :=
     recommendedMemory s; minimumMemory := minimumMemory s;
     recommendedStorage := recommendedStorage s; minimumStorage :=
     minimumStorage s; userPassword := v; rootPassword := rootPassword s;
     profile := profile s; sourceMediaID := sourceMediaID s |}.
Definition set_rootPassword (v : jsstring) (s : State) : State :=
  {| inProgress := inProgress s; validate := validate s; vmName := vmName s;
     connectionName := connectionName s; sourceType := sourceType s;
     unattendedInstallation := unattendedInstallation s; source := source s;
     os := os s; memorySize := memorySize s; memorySizeUnit :=
     memorySizeUnit s; storageSize := storageSize s; storageSizeUnit :=
     storageSizeUnit s; storagePool := storagePool s; storageVolume :=
     storageVolume s; startVm := startVm s; recommendedMemory :=
     recommendedMemory s; minimumMemory := minimumMemory s;
     recommendedStorage := recommendedStorage s; minimumStorage :=
     minimumStorage s; userPassword := userPassword s; rootPassword := v;
     profile := profile s; sourceMediaID := sourceMediaID s |}.
Definition set_profile (v : option jsstring) (s : State) : State :=
  {| inProgress := inProgress s; validate := validate s; vmName := vmName s;
     connectionName := connectionName s; sourceType := sourceType s;
     unattendedInstallation := unattendedInstallation s; source := source s;
     os := os s; memorySize := memorySize s; memorySizeUnit :=
     memorySizeUnit s; storageSize := storageSize s; storageSizeUnit :=
     storageSizeUnit s; storagePool := storagePool s; storageVolume :=
     storageVolume s; startVm := startVm s; recommendedMemory :=
     recommendedMemory s; minimumMemory := minimumMemory s;
     recommendedStorage := recommendedStorage s; minimumStorage :=
     minimumStorage s; userPassword := userPassword s; rootPassword :=
     rootPassword s; profile := v; sourceMediaID := sourceMediaID s |}.
Definition set_sourceMediaID (v : option jsstring) (s : State) : State :=
  {| inProgress := inProgress s; validate := validate s; vmName := vmName s;
     connectionName := connectionName s; sourceType := sourceType s;
     unattendedInstallation := unattendedInstallation s; source := source s;
     os := os s; memorySize := memorySize s; memorySizeUnit :=
     memorySizeUnit s; storageSize := storageSize s; storageSizeUnit :=
     storageSizeUnit s; storagePool := storagePool s; storageVolume :=
     storageVolume s; startVm := startVm s; recommendedMemory :=
     recommendedMemory s; minimumMemory := minimumMemory s;
     recommendedStorage := recommendedStorage s; minimumStorage :=
     minimumStorage s; userPassword := userPassword s; rootPassword :=
     rootPassword s; profile := profile s; sourceMediaID := v |}.

(** [this.setState(delta)]: merge [delta] into the pending state. *)
Definition setState (delta : State -> State) (pending : State) : State :=
  delta pending.

(** The state the constructor of [CreateVmModal] builds. *)
Definition initialState (mode : jsstring) (downloadOSSupported : bool)
    (nodeMaxMemory : Qc) : State :=
  let defaultSourceType :=
    if str_eqb mode (lit "create") then
      if negb downloadOSSupported then LOCAL_INSTALL_MEDIA_SOURCE
      else DOWNLOAD_AN_OS
    else EXISTING_DISK_IMAGE_SOURCE in
  {| inProgress := false;
     validate := false;
     vmName := lit "";
     connectionName := LIBVIRT_SYSTEM_CONNECTION;
     sourceType := defaultSourceType;
     unattendedInstallation := false;
     source := Some (lit "");
     os := None;
     memorySize :=
       Math_min (convertToUnit (Qc_of_Z 1024) units.MiB units.GiB)
         (Math_floor (convertToUnit nodeMaxMemory units.KiB units.GiB));
     memorySizeUnit := units.GiB;
     storageSize :=
       Math_min (convertToUnit (Qc_of_Z (10 * 1024)) units.MiB units.GiB)
         (Math_floor (convertToUnit nodeMaxMemory units.KiB units.GiB));
     storageSizeUnit := units.GiB;
     storagePool := lit "NewVolume";
     storageVolume := Some (lit "");
     startVm := true;
     recommendedMemory := None;
     minimumMemory := 0;
     recommendedStorage := None;
     minimumStorage := 0;
     userPassword := lit "";
     rootPassword := lit "";
     profile := None;
     sourceMediaID := None |}.

(** The argument of [validateParams]: the draft, spread, plus the existing
    VMs of the draft's connection. ([osInfoList] is passed too and never
    read by the validation.) *)
Record VmParams : Type := {
  draft :> State;
  vms : list Vm;
}.

(** ** Storage pool helpers *)

(** [pools.find(pred)] *)
Fixpoint find {A} (pred : A -> bool) (l : list A) : option A :=
  match l with
  | [] => None
  | x :: l' => if pred x then Some x else find pred l'
  end.

(** How a pool is referenced: by name, else by path, else not at all. *)
Definition getPoolSpaceAvailable (storagePools : list StoragePool)
    (poolName poolPath : option jsstring) (connectionName : jsstring)
  : option Qc :=
  let storagePools :=
    filter (fun pool => pool_connectionName pool = connectionName) storagePools in
  let storagePool :=
    if truthy_str poolName then
      find (fun pool => bool_decide (Some (pool_name pool) = poolName)) storagePools
    else if truthy_str poolPath then
      find (fun pool => bool_decide (Some (pool_target_path pool) = poolPath))
        storagePools
    else None in
  pool_available <$> storagePool.

Definition getSpaceAvailable (permission : Permission)
    (storagePools : list StoragePool) (connectionName : jsstring)
  : option Qc :=
  let space :=
    getPoolSpaceAvailable storagePools (Some (lit "default")) None connectionName in
  if negb (truthy_num space) then
    let poolPath :=
      if bool_decide (connectionName = LIBVIRT_SYSTEM_CONNECTION) then
        Some (lit "/var/lib/libvirt/images")
      else
        match user permission with
        | Some u => Some (user_home u ++ lit "/.local/share/libvirt/images")
        | None => None
        end in
    getPoolSpaceAvailable storagePools None poolPath connectionName
  else space.

(** ** Network boot helper *)

(** Modelled from the spec: [getPXEInitialNetworkSource] of [pxe-helpers.js],
    which is not among the sources. The spec has it "compute an initial
    network source from available network/device lists", non-empty "when any
    supporting network/device exists". The two shapes of the result are the
    ones the dialog itself recognises when it renders the network-boot row:
    [network=<name>] for a virtual network and [type=direct,source=<iface>]
    for a host network device. Networks come first; with neither, the result
    is [undefined]. *)
Definition getPXEInitialNetworkSource (nodeDevices : list NodeDevice)
    (virtualNetworks : list Network) : option jsstring :=
  match virtualNetworks with
  | network :: _ => Some (lit "network=" ++ network_name network)
  | [] =>
      match filter (fun dev => capability_type dev = lit "net") nodeDevices with
      | dev :: _ => Some (lit "type=direct,source=" ++ capability_interface dev)
      | [] => None
      end
  end.

(** ** Validation *)

Definition validateParams (permission : Permission) (vmParams : VmParams)
  : outcome (gmap string message) :=
  let validationFailed : gmap string message := ∅ in

  let validationFailed :=
    if isEmpty (Some (trim (vmName vmParams))) then
      <["vmName" := gettext "Name must not be empty"]> validationFailed
    else if existsb (fun vm => str_eqb (vm_name vm) (vmName vmParams))
                    (vms vmParams) then
      <["vmName" := cockpit_format (gettext "VM $0 already exists")
                      [ArgString (vmName vmParams)]]> validationFailed
    else validationFailed in

  let validationFailed :=
    match os vmParams with
    | None =>
        <["os" := gettext "You need to select the most closely matching Operating System"]>
          validationFailed
    | Some _ => validationFailed
    end in

  let source' :=
    if truthy_str (source vmParams) then trim <$> source vmParams else None in
  (* where the switch runs, [vmParams.source] is a string *)
  let raw := default [] (source vmParams) in

  let validationFailed :=
    if negb (isEmpty source') then
      if str_eqb (sourceType vmParams) PXE_SOURCE then validationFailed
      else if str_eqb (sourceType vmParams) LOCAL_INSTALL_MEDIA_SOURCE
              || str_eqb (sourceType vmParams) EXISTING_DISK_IMAGE_SOURCE then
        if negb (startsWith raw (lit "/")) then
          <["source" := gettext "Invalid filename"]> validationFailed
        else validationFailed
      else
        if negb (startsWith raw (lit "http"))
           && negb (startsWith raw (lit "ftp"))
           && negb (startsWith raw (lit "nfs")) then
          <["source" := gettext "Source should start with http, ftp or nfs protocol"]>
            validationFailed
        else validationFailed
    else if negb (str_eqb (sourceType vmParams) DOWNLOAD_AN_OS) then
      <["source" := gettext "Installation Source must not be empty"]> validationFailed
    else validationFailed in

  let validationFailed :=
    if bool_decide (memorySize vmParams = 0) then
      <["memory" := gettext "Memory must not be 0"]> validationFailed
    else
      match os vmParams with
      | Some o =>
          if truthy_num (ram (minimumResources o))
             && bool_decide
                  (convertToUnit (memorySize vmParams) (memorySizeUnit vmParams) units.B
                   < default 0 (ram (minimumResources o))) then
            <["memory" :=
                cockpit_format
                  (gettext "The selected Operating System has minimum memory requirement of $0 $1")
                  [ArgNumber (convertToUnit (default 0 (ram (minimumResources o)))
                                units.B (memorySizeUnit vmParams));
                   ArgString (units.name (memorySizeUnit vmParams))]]>
              validationFailed
          else validationFailed
      | None => validationFailed
      end in

  let validationFailed :=
    if negb (str_eqb (sourceType vmParams) EXISTING_DISK_IMAGE_SOURCE)
       && str_eqb (storagePool vmParams) (lit "NewVolume") then
      if bool_decide (storageSize vmParams = 0) then
        <["storage" := gettext "Storage size must not be 0"]> validationFailed
      else
        match os vmParams with
        | Some o =>
            if truthy_num (storage (minimumResources o))
               && bool_decide
                    (convertToUnit (storageSize vmParams) (storageSizeUnit vmParams) units.B
                     < default 0 (storage (minimumResources o))) then
              <["storage" :=
                  cockpit_format
                    (gettext "The selected Operating System has minimum storage size requirement of $0 $1")
                    [ArgNumber (convertToUnit (default 0 (storage (minimumResources o)))
                                  units.B (storageSizeUnit vmParams));
                     ArgString (units.name (storageSizeUnit vmParams))]]>
                validationFailed
            else validationFailed
        | None => validationFailed
        end
    else validationFailed in

  if unattendedInstallation vmParams
     && negb (truthy_str (Some (rootPassword vmParams))) then
    (* [permission.user.name] throws while the user is [null] *)
    u ← match user permission with
        | Some u => Returned u
        | None => TypeError
        end;
    if str_eqb (user_name u) (lit "root")
       || negb (truthy_str (Some (userPassword vmParams))) then
      mret (<["password" := gettext "Please set a root or a user password"]>
              validationFailed)
    else mret validationFailed
  else mret validationFailed.

(** ** The field update rule *)

(** [profiles.sort()]: the default order of [Array.prototype.sort], strings
    compared code unit by code unit. *)
Fixpoint str_leb (a b : jsstring) : bool :=
  match a, b with
  | [], _ => true
  | _ :: _, [] => false
  | x :: a', y :: b' => (x <? y)%N || ((x =? y)%N && str_leb a' b')
  end.

Fixpoint insert_sorted (x : jsstring) (l : list jsstring) : list jsstring :=
  match l with
  | [] => [x]
  | y :: l' => if str_leb x y then x :: l else y :: insert_sorted x l'
  end.

Definition sort (l : list jsstring) : list jsstring :=
  foldr insert_sorted [] l.

Definition set_profiles (v : option (list jsstring)) (o : OsInfo) : OsInfo :=
  {| os_id := os_id o; shortId := shortId o;
     minimumResources := minimumResources o;
     recommendedResources := recommendedResources o;
     profiles := v; unattendedInstallable := unattendedInstallable o |}.

(** A call [onValueChanged(key, value)]: the key with the value it takes.
    The last four keys are the ones that reach the [default] case. *)
Inductive KeyValue : Type :=
| K_vmName (value : jsstring)
| K_source (value : option jsstring)
| K_sourceType (value : jsstring)
| K_storagePool (value : jsstring)
| K_storageVolume (value : option jsstring)
| K_memorySize (value : Qc)
| K_storageSize (value : Qc)
| K_memorySizeUnit (value : units.t)
| K_storageSizeUnit (value : units.t)
| K_startVm (value : bool)
| K_connectionName (value : jsstring)
| K_os (value : option OsInfo)
| K_unattendedInstallation (value : bool)
| K_profile (value : option jsstring)
| K_rootPassword (value : jsstring)
| K_userPassword (value : jsstring)
| K_sourceMediaID (value : option jsstring).

Section FieldUpdateRule.
Variable permission : Permission.
Variable props : Props.
(** [this.state], as it is while the handler runs. *)
Variable this_state : State.

(** The body of [onValueChanged], with [self] standing for the calls it
    makes to itself. [pending] is the state the batched [setState] calls
    have built so far.

    The [source] case also (re)arms the 250 ms timer of the OS
    autodetection; the timer and the request it fires live outside the
    draft and are not part of this function. *)
Definition onValueChanged_body
    (self : KeyValue -> State -> outcome State)
    (kv : KeyValue) (pending : State) : outcome State :=
  match kv with
  | K_vmName value =>
      mret (setState (set_vmName (join (lit "_") (split 32%N value))) pending)
  | K_source value =>
      mret (setState (set_source value) pending)
  | K_sourceType value =>
      let pending := setState (set_sourceType value) pending in
      if str_eqb value PXE_SOURCE then
        let initialPXESource :=
          getPXEInitialNetworkSource
            (filter (fun nodeDevice =>
                       device_connectionName nodeDevice = connectionName this_state)
                    (nodeDevices props))
            (filter (fun network =>
                       network_connectionName network = connectionName this_state)
                    (networks props)) in
        mret (setState (set_source initialPXESource) pending)
      else if str_eqb (sourceType this_state) PXE_SOURCE
              && negb (str_eqb value PXE_SOURCE) then
        mret (setState (set_source (Some (lit ""))) pending)
      else mret pending
  | K_storagePool value =>
      let storagePool :=
        find (fun pool => bool_decide (pool_name pool = value))
             (filter (fun pool => pool_connectionName pool = connectionName this_state)
                     (storagePools props)) in
      let storageVolumes := storagePool ≫= pool_volumes in
      let storageVolume := storageVolumes ≫= head in
      mret (setState (fun s => set_storageVolume (volume_name <$> storageVolume)
                                 (set_storagePool value s)) pending)
  | K_storageVolume value =>
      mret (setState (set_storageVolume value) pending)
  | K_memorySize value =>
      let value :=
        Math_min value
          (Math_floor (convertToUnit (nodeMaxMemory props) units.KiB
                         (memorySizeUnit this_state))) in
      mret (setState (set_memorySize value) pending)
  | K_storageSize value =>
      let storagePools :=
        filter (fun pool => pool_connectionName pool = connectionName this_state)
               (storagePools props) in
      let spaceAvailable :=
        getSpaceAvailable permission storagePools (connectionName this_state) in
      let value :=
        if truthy_num spaceAvailable then
          Math_min value
            (Math_floor (convertToUnit (default 0 spaceAvailable) units.B
                           (storageSizeUnit this_state)))
        else value in
      mret (setState (set_storageSize value) pending)
  | K_memorySizeUnit value =>
      let pending := setState (set_memorySizeUnit value) pending in
      let value :=
        convertToUnit (memorySize this_state) (memorySizeUnit this_state) value in
      mret (setState (set_memorySize value) pending)
  | K_storageSizeUnit value =>
      let pending := setState (set_storageSizeUnit value) pending in
      let value :=
        convertToUnit (storageSize this_state) (storageSizeUnit this_state) value in
      mret (setState (set_storageSize value) pending)
  | K_startVm value =>
      mret (setState (set_startVm value) pending)
  | K_connectionName value =>
      let pending := setState (set_connectionName value) pending in
      pending ←
        (if str_eqb (sourceType this_state) PXE_SOURCE
            && str_eqb value LIBVIRT_SESSION_CONNECTION then
           self (K_sourceType LOCAL_INSTALL_MEDIA_SOURCE) pending
         else mret pending);
      if negb (str_eqb (storagePool this_state) (lit "NewVolume"))
         && negb (str_eqb (storagePool this_state) (lit "NoStorage")) then
        mret (setState (set_storagePool (lit "NewVolume")) pending)
      else mret pending
  | K_os None =>
      (* every guard [value && ...] is false, nothing is set, and
         [value.unattendedInstallable] throws *)
      TypeError
  | K_os (Some value) =>
      (* [sort()] and [reverse()] reorder [value.profiles] in place, and
         [stateDelta.os] is that same object: the draft stores the OS
         with its profiles reordered *)
      let value :=
        set_profiles ((fun l => reverse (sort l)) <$> profiles value) value in
      let stateDelta : State -> State := set_os (Some value) in
      let stateDelta :=
        if truthy_num (ram (minimumResources value)) then
          set_minimumMemory (default 0 (ram (minimumResources value))) ∘ stateDelta
        else stateDelta in
      let stateDelta :=
        match profiles value with
        | Some l => set_profile (head l) ∘ stateDelta
        | None => stateDelta
        end in
      let stateDelta :=
        if truthy_num (ram (recommendedResources value)) then
          set_recommendedMemory (ram (recommendedResources value)) ∘ stateDelta
        else set_recommendedMemory None ∘ stateDelta in
      pending ←
        (if truthy_num (ram (recommendedResources value)) then
           let recommendedMemory := default 0 (ram (recommendedResources value)) in
           let converted :=
             Math_floor (convertToUnit recommendedMemory units.B
                           (memorySizeUnit this_state)) in
           if bool_decide (converted = 0) then
             mret (setState (fun s =>
                     set_memorySize
                       (Math_floor (convertToUnit recommendedMemory units.B units.MiB))
                       (set_memorySizeUnit units.MiB s)) pending)
           else self (K_memorySize converted) pending
         else mret pending);
      let stateDelta :=
        if truthy_num (storage (minimumResources value)) then
          set_minimumStorage (default 0 (storage (minimumResources value))) ∘ stateDelta
        else stateDelta in
      let stateDelta :=
        if truthy_num (storage (recommendedResources value)) then
          set_recommendedStorage (storage (recommendedResources value)) ∘ stateDelta
        else set_recommendedStorage None ∘ stateDelta in
      pending ←
        (if truthy_num (storage (recommendedResources value)) then
           let recommendedStorage := default 0 (storage (recommendedResources value)) in
           let converted :=
             Math_floor (convertToUnit recommendedStorage units.B
                           (storageSizeUnit this_state)) in
           if bool_decide (converted = 0) then
             mret (setState (fun s =>
                     set_storageSize
                       (Math_floor (convertToUnit recommendedStorage units.B units.MiB))
                       (set_storageSizeUnit units.MiB s)) pending)
           else self (K_storageSize converted) pending
         else mret pending);
      pending ←
        (if negb (unattendedInstallable value) then
           self (K_unattendedInstallation false) pending
         else mret pending);
      mret (setState stateDelta pending)
  | K_unattendedInstallation value =>
      mret (setState (fun s => set_startVm true (set_unattendedInstallation value s))
              pending)
  | K_profile value => mret (setState (set_profile value) pending)
  | K_rootPassword value => mret (setState (set_rootPassword value) pending)
  | K_userPassword value => mret (setState (set_userPassword value) pending)
  | K_sourceMediaID value => mret (setState (set_sourceMediaID value) pending)
  end.

(** [onValueChanged]. A case calls back at most one level deep
    ([connectionName] into [sourceType]; [os] into [memorySize],
    [storageSize] and [unattendedInstallation]), so two unfoldings of the
    body are the whole function: [onValueChanged_unfold] below is its
    recursive equation. *)
Definition onValueChanged (kv : KeyValue) (pending : State) : outcome State :=
  onValueChanged_body (onValueChanged_body (fun _ _ => TypeError)) kv pending.

(** One user edit: the handler runs on [this.state] and React renders the
    merged result. *)
Definition edit (kv : KeyValue) : outcome State :=
  onValueChanged kv this_state.
End FieldUpdateRule.

(** ** What the memory row shows

    [MemoryRow] hands these to the number input: the value it displays and
    its lower and upper limits. The OS minimum enters here, not in the
    stored [memorySize]. *)
Definition MemoryRow_value (this_state : State) : Qc :=
  Math_max (memorySize this_state)
    (Math_floor (convertToUnit (minimumMemory this_state) units.B
                   (memorySizeUnit this_state))).

Definition MemoryRow_minValue (this_state : State) : Qc :=
  Math_floor (convertToUnit (minimumMemory this_state) units.B
                (memorySizeUnit this_state)).

(** ** Submission *)

(** The parameter snapshot handed to [createVm]. *)
Record CreateVmParams : Type := {
  cv_connectionName : jsstring;
  cv_vmName : jsstring;
  cv_source : option jsstring;
  cv_sourceType : jsstring;
  cv_os : jsstring;
  cv_profile : option jsstring;
  cv_memorySize : Qc;
  cv_storageSize : Qc;
  cv_storagePool : jsstring;
  cv_storageVolume : option jsstring;
  cv_startVm : bool;
  cv_unattended : bool;
  cv_userPassword : jsstring;
  cv_rootPassword : jsstring;
}.

(** What [onCreateClicked] asks of the outside world. The wait on the
    returned promise (closing the dialog, the error notification) happens in
    later turns of the event loop and is not part of this function. *)
Inductive Effect : Type :=
| dispatch_createVm (vmParams : CreateVmParams).

(** [Object.getOwnPropertyNames(validation)] *)
Definition Object_getOwnPropertyNames (o : gmap string message) : list string :=
  (map_to_list o).*1.

(** The object literal [vmParams] of [onCreateClicked]. *)
Definition snapshot (this_state : State) : CreateVmParams :=
  {| cv_connectionName := connectionName this_state;
     cv_vmName := vmName this_state;
     cv_source := source this_state;
     cv_sourceType := sourceType this_state;
     cv_os := match os this_state with
              | Some o => shortId o
              | None => lit "auto"
              end;
     cv_profile := profile this_state;
     cv_memorySize :=
       convertToUnit (memorySize this_state) (memorySizeUnit this_state) units.MiB;
     cv_storageSize :=
       convertToUnit (storageSize this_state) (storageSizeUnit this_state) units.GiB;
     cv_storagePool := storagePool this_state;
     cv_storageVolume := storageVolume this_state;
     cv_startVm := startVm this_state;
     cv_unattended := unattendedInstallation this_state;
     cv_userPassword := userPassword this_state;
     cv_rootPassword := rootPassword this_state |}.

(** [onCreateClicked]: the next state and the effects, in order. *)
Definition onCreateClicked (permission : Permission) (props : Props)
    (this_state : State) : outcome (State * list Effect) :=
  validation ←
    validateParams permission
      {| draft := this_state;
         vms := filter (fun vm => vm_connectionName vm = connectionName this_state)
                       (props_vms props) |};
  if bool_decide (0 < length (Object_getOwnPropertyNames validation))%nat then
    mret (setState (fun s => set_validate true (set_inProgress false s)) this_state,
          [])
  else
    let pending :=
      setState (fun s => set_validate false (set_inProgress true s)) this_state in
    let vmParams := snapshot this_state in
    mret (pending, [dispatch_createVm vmParams]).

(** ** What [render] computes from the draft *)

(** [this.state.validate && validateParams(...)]: [false] (here [None])
    until a submission has been rejected. *)
Definition render_validationFailed (permission : Permission) (props : Props)
    (this_state : State) : outcome (option (gmap string message)) :=
  if validate this_state then
    validationFailed ←
      validateParams permission
        {| draft := this_state;
           vms := filter (fun vm => vm_connectionName vm = connectionName this_state)
                         (props_vms props) |};
    mret (Some validationFailed)
  else mret None.

(** [isDisabled] of the Create/Import button:
    [Object.getOwnPropertyNames(validationFailed).length > 0], where [false]
    has no own property names. *)
Definition createButton_isDisabled (permission : Permission) (props : Props)
    (this_state : State) : outcome bool :=
  validationFailed ← render_validationFailed permission props this_state;
  mret (match validationFailed with
        | Some validationFailed =>
            bool_decide (0 < length (Object_getOwnPropertyNames validationFailed))%nat
        | None => false
        end).

(** [disabled] of the "Immediately Start VM" checkbox. *)
Definition startVmCheckbox_disabled (this_state : State) : bool :=
  unattendedInstallation this_state.


(** The storage row: [render] hands it the pools of the draft's connection;
    it shows [value] between [minValue] and [maxValue]. *)
Definition StorageRow_poolSpaceAvailable (permission : Permission)
    (props : Props) (this_state : State) : option Qc :=
  getSpaceAvailable permission
    (filter (fun pool => pool_connectionName pool = connectionName this_state)
            (storagePools props))
    (connectionName this_state).

Definition StorageRow_value (this_state : State) : Qc :=
  Math_max (storageSize this_state)
    (Math_floor (convertToUnit
                   (if bool_decide (minimumStorage this_state = 0) then 0
                    else minimumStorage this_state)
                   units.B (storageSizeUnit this_state))).

Definition StorageRow_minValue (this_state : State) : Qc :=
  if bool_decide (minimumStorage this_state = 0) then minimumStorage this_state
  else Math_floor (convertToUnit (minimumStorage this_state) units.B
                     (storageSizeUnit this_state)).

Definition StorageRow_maxValue (permission : Permission) (props : Props)
    (this_state : State) : option Qc :=
  let poolSpaceAvailable :=
    StorageRow_poolSpaceAvailable permission props this_state in
  if truthy_num poolSpaceAvailable then
    Some (Math_floor (convertToUnit (default 0 poolSpaceAvailable) units.B
                        (storageSizeUnit this_state)))
  else poolSpaceAvailable.

(** ** The button that opens the dialog: [CreateVmAction]

    Its [open] and [close] set [showModal] unless the component has been
    unmounted ([isClosed]). *)
Record Action : Type := {
  showModal : bool;
  isClosed : bool;
}.

Inductive ActionEvent : Type :=
| open_
| close_
| componentWillUnmount.

Definition Action_step (a : Action) (e : ActionEvent) : Action :=
  match e with
  | open_ =>
      if negb (isClosed a) then {| showModal := true; isClosed := isClosed a |}
      else a
  | close_ =>
      if negb (isClosed a) then {| showModal := false; isClosed := isClosed a |}
      else a
  | componentWillUnmount => {| showModal := showModal a; isClosed := true |}
  end.

(** The component as constructed, and after a run of events. *)
Definition Action_initial : Action := {| showModal := false; isClosed := false |}.

Definition Action_run (a : Action) (events : list ActionEvent) : Action :=
  foldl Action_step a events.

(** ** The validation report, entry by entry

    Each statement of [validateParams] writes at most one key of the report.
    The functions below are those statements, read as "the entry for this
    key, if any"; [validateParams_report] proves that the report of
    [validateParams] is made of exactly these entries. *)

Definition name_failure (vmParams : VmParams) : option message :=
  if isEmpty (Some (trim (vmName vmParams))) then
    Some (gettext "Name must not be empty")
  else if existsb (fun vm => str_eqb (vm_name vm) (vmName vmParams))
                  (vms vmParams) then
    Some (cockpit_format (gettext "VM $0 already exists")
            [ArgString (vmName vmParams)])
  else None.

Definition os_failure (vmParams : VmParams) : option message :=
  match os vmParams with
  | None =>
      Some (gettext "You need to select the most closely matching Operating System")
  | Some _ => None
  end.

Definition source_failure (vmParams : VmParams) : option message :=
  let source' :=
    if truthy_str (source vmParams) then trim <$> source vmParams else None in
  let raw := default [] (source vmParams) in
  if negb (isEmpty source') then
    if str_eqb (sourceType vmParams) PXE_SOURCE then None
    else if str_eqb (sourceType vmParams) LOCAL_INSTALL_MEDIA_SOURCE
            || str_eqb (sourceType vmParams) EXISTING_DISK_IMAGE_SOURCE then
      if negb (startsWith raw (lit "/")) then Some (gettext "Invalid filename")
      else None
    else
      if negb (startsWith raw (lit "http"))
         && negb (startsWith raw (lit "ftp"))
         && negb (startsWith raw (lit "nfs")) then
        Some (gettext "Source should start with http, ftp or nfs protocol")
      else None
  else if negb (str_eqb (sourceType vmParams) DOWNLOAD_AN_OS) then
    Some (gettext "Installation Source must not be empty")
  else None.

Definition memory_failure (vmParams : VmParams) : option message :=
  if bool_decide (memorySize vmParams = 0) then
    Some (gettext "Memory must not be 0")
  else
    match os vmParams with
    | Some o =>
        if truthy_num (ram (minimumResources o))
           && bool_decide
                (convertToUnit (memorySize vmParams) (memorySizeUnit vmParams) units.B
                 < default 0 (ram (minimumResources o))) then
          Some (cockpit_format
                  (gettext "The selected Operating System has minimum memory requirement of $0 $1")
                  [ArgNumber (convertToUnit (default 0 (ram (minimumResources o)))
                                units.B (memorySizeUnit vmParams));
                   ArgString (units.name (memorySizeUnit vmParams))])
        else None
    | None => None
    end.

Definition storage_failure (vmParams : VmParams) : option message :=
  if negb (str_eqb (sourceType vmParams) EXISTING_DISK_IMAGE_SOURCE)
     && str_eqb (storagePool vmParams) (lit "NewVolume") then
    if bool_decide (storageSize vmParams = 0) then
      Some (gettext "Storage size must not be 0")
    else
      match os vmParams with
      | Some o =>
          if truthy_num (storage (minimumResources o))
             && bool_decide
                  (convertToUnit (storageSize vmParams) (storageSizeUnit vmParams) units.B
                   < default 0 (storage (minimumResources o))) then
            Some (cockpit_format
                    (gettext "The selected Operating System has minimum storage size requirement of $0 $1")
                    [ArgNumber (convertToUnit (default 0 (storage (minimumResources o)))
                                  units.B (storageSizeUnit vmParams));
                     ArgString (units.name (storageSizeUnit vmParams))])
          else None
      | None => None
      end
  else None.

Definition password_failure (permission : Permission) (vmParams : VmParams)
  : outcome (option message) :=
  if unattendedInstallation vmParams
     && negb (truthy_str (Some (rootPassword vmParams))) then
    u ← match user permission with
        | Some u => Returned u
        | None => TypeError
        end;
    if str_eqb (user_name u) (lit "root")
       || negb (truthy_str (Some (userPassword vmParams))) then
      mret (Some (gettext "Please set a root or a user password"))
    else mret None
  else mret None.

Definition record_failure (key : string) (failure : option message)
    (validationFailed : gmap string message) : gmap string message :=
  match failure with
  | Some reason => <[key := reason]> validationFailed
  | None => validationFailed
  end.

(** [validateParams] reads [permission.user.name] only for a draft with
    unattended installation and no root password; it returns whenever that
    read does not happen or the user is loaded. *)
Definition user_available (permission : Permission) (vmParams : State) : Prop :=
  unattendedInstallation vmParams = true →
  rootPassword vmParams = [] →
  is_Some (user permission).

(** The draft as [onCreateClicked] and [render] hand it to [validateParams]:
    with the VMs of its own connection. *)
Definition validated (props : Props) (this_state : State) : VmParams :=
  {| draft := this_state;
     vms := filter (fun vm => vm_connectionName vm = connectionName this_state)
                   (props_vms props) |}.

(** ** Sample data

    A small page: one administrator, two catalogue entries, an 8 GiB host
    with the default network and pool, and three existing VMs, the last one
    named "db" followed by a tab. *)

Definition GiB_in_bytes (n : Z) : Qc := Qc_of_Z (n * 1024 ^ 3).

Definition sample_permission : Permission :=
  {| user := Some {| user_name := lit "admin"; user_home := lit "/home/admin" |} |}.

Definition sample_os : OsInfo :=
  {| os_id := lit "http://fedoraproject.org/fedora/32";
     shortId := lit "fedora32";
     minimumResources :=
       {| ram := Some (GiB_in_bytes 2); storage := Some (GiB_in_bytes 5) |};
     recommendedResources :=
       {| ram := Some (GiB_in_bytes 4); storage := Some (GiB_in_bytes 20) |};
     profiles := Some [lit "desktop"; lit "jeos"];
     unattendedInstallable := true |}.

Definition sample_os_attended : OsInfo :=
  {| os_id := lit "http://freedos.org/freedos/1.2";
     shortId := lit "freedos1.2";
     minimumResources := {| ram := None; storage := None |};
     recommendedResources := {| ram := None; storage := None |};
     profiles := None;
     unattendedInstallable := false |}.

Definition sample_props : Props :=
  {| nodeMaxMemory := Qc_of_Z (8 * 1024 ^ 2);
     nodeDevices :=
       [ {| device_connectionName := lit "system";
            capability_type := lit "net";
            capability_interface := lit "eth0" |} ];
     networks :=
       [ {| network_connectionName := lit "system";
            network_name := lit "default" |} ];
     storagePools :=
       [ {| pool_connectionName := lit "system";
            pool_name := lit "default";
            pool_target_path := lit "/var/lib/libvirt/images";
            pool_available := GiB_in_bytes 100;
            pool_volumes := Some [ {| volume_name := lit "disk0.qcow2" |} ] |} ];
     props_vms :=
       [ {| vm_name := lit "db"; vm_connectionName := lit "system" |};
         {| vm_name := lit "web"; vm_connectionName := lit "session" |};
         {| vm_name := lit "db" ++ [9%N]; vm_connectionName := lit "system" |} ];
     osInfoList := [sample_os; sample_os_attended] |}.

(** The dialog as it opens in create mode on that page. *)
Definition sample_state : State :=
  initialState (lit "create") true (nodeMaxMemory sample_props).

(** The OS of the passing draft as the draft holds it: the [os] rule has
    reordered its profiles. *)
Definition sample_os_stored : OsInfo :=
  set_profiles (Some [lit "jeos"; lit "desktop"]) sample_os.

(** The dialog after the user has typed the name "web" and picked the OS. *)
Definition sample_named : State := set_vmName (lit "web") sample_state.
Definition sample_with_os : State :=
  set_recommendedStorage (Some (GiB_in_bytes 20))
    (set_minimumStorage (GiB_in_bytes 5)
      (set_recommendedMemory (Some (GiB_in_bytes 4))
        (set_profile (Some (lit "jeos"))
          (set_minimumMemory (GiB_in_bytes 2)
            (set_os (Some sample_os_stored)
              (set_storageSize (Qc_of_Z 20)
                (set_memorySize (Qc_of_Z 4) sample_named))))))).

(** A draft that passes validation: the same with the memory taken down to
    the 2 GiB the OS needs. *)
Definition sample_draft : State := set_memorySize (Qc_of_Z 2) sample_with_os.

(** The same draft under two other names: "db" followed by a tab, which is
    the name of the third VM, and "db" after a tab, which no VM has. *)
Definition sample_draft_tab_after : State :=
  set_vmName (lit "db" ++ [9%N]) sample_draft.
Definition sample_draft_tab_before : State :=
  set_vmName (9%N :: lit "db") sample_draft.

(** The passing draft with 1 GiB of memory, below the 2 GiB the OS asks
    for, and the same draft installing from a local file. *)
Definition sample_draft_small : State :=
  set_memorySize (Qc_of_Z 1) sample_draft.
Definition sample_draft_file (path : jsstring) : State :=
  set_source (Some path) (set_sourceType LOCAL_INSTALL_MEDIA_SOURCE sample_draft).

(** * Properties *)

(** ** Strings *)

Section Strings.
Implicit Types (s p : jsstring) (c : code_unit).

Lemma startsWith_prefix s p : startsWith s p = true ↔ p `prefix_of` s.
Proof.
  revert s. induction p as [|a p IH]; intros [|c s]; simpl.
  - split; [intros _; apply prefix_nil | done].
  - split; [intros _; apply prefix_nil | done].
  - split; [done | intros H; by apply prefix_nil_not in H].
  - rewrite andb_true_iff, N.eqb_eq, IH. split.
    + intros [-> H]. by apply prefix_cons.
    + intros H. split; [symmetry; eapply prefix_cons_inv_1, H
                       | eapply prefix_cons_inv_2, H].
Qed.

Lemma startsWith_not_prefix s p : startsWith s p = false ↔ ¬ p `prefix_of` s.
Proof. rewrite <- startsWith_prefix. by destruct (startsWith s p). Qed.

Lemma trimStart_nil s : trimStart s = [] ↔ Forall (λ c, isWhiteSpace c = true) s.
Proof.
  induction s as [|c s IH]; simpl.
  - split; [constructor | done].
  - destruct (isWhiteSpace c) eqn:Hc.
    + rewrite IH. split; [by constructor | by inversion 1].
    + split; [done | inversion 1; congruence].
Qed.

(** A string is empty after trimming exactly when it is made of white
    space only. *)
Lemma trim_nil s : trim s = [] ↔ Forall (λ c, isWhiteSpace c = true) s.
Proof.
  unfold trim, trimEnd. split.
  - intros H. apply (f_equal reverse) in H.
    rewrite reverse_involutive, reverse_nil in H.
    apply trimStart_nil, Forall_reverse in H.
    rewrite reverse_involutive in H.
    destruct (trimStart s) as [|c t] eqn:Ht; [by apply trimStart_nil |].
    exfalso. inversion H as [|? ? Hc _]; subst.
    clear H. induction s as [|d s IH]; simpl in Ht; [done |].
    destruct (isWhiteSpace d) eqn:Hd; [by apply IH | congruence].
  - intros H. apply trimStart_nil in H. by rewrite H.
Qed.

Lemma trim_not_nil s :
  trim s ≠ [] ↔ ∃ c, c ∈ s ∧ isWhiteSpace c = false.
Proof.
  rewrite trim_nil. split.
  - intros H. apply (not_Forall_Exists _) in H.
    apply Exists_exists in H as (c & Hin & Hc).
    exists c. split; [done |]. simpl in Hc.
    destruct (isWhiteSpace c); [by destruct Hc | done].
  - intros (c & Hin & Hc) H. rewrite Forall_forall in H.
    specialize (H c Hin). congruence.
Qed.

Lemma isEmpty_trim s : isEmpty (Some (trim s)) = true ↔ trim s = [].
Proof.
  simpl. rewrite bool_decide_eq_true. by destruct (trim s).
Qed.

Lemma split_not_nil sep s : split sep s ≠ [].
Proof.
  destruct s as [|c s]; simpl; [done |].
  destruct (c =? sep)%N; [done |]. by destruct (split sep s).
Qed.

Lemma join_cons_cons sep c w ws :
  join sep ((c :: w) :: ws) = c :: join sep (w :: ws).
Proof. by destruct ws. Qed.

(** [value.split(" ").join("_")] replaces each space, and nothing else. *)
Lemma join_split_replace (sep rep : code_unit) s :
  join [rep] (split sep s) = (λ c, if (c =? sep)%N then rep else c) <$> s.
Proof.
  induction s as [|c s IH]; [done |].
  rewrite fmap_cons, <- IH. simpl.
  pose proof (split_not_nil sep s).
  destruct (split sep s) as [|w ws]; [done |].
  destruct (c =? sep)%N; [done | apply join_cons_cons].
Qed.
End Strings.

(** ** Numbers and units *)

Section Numbers.
Implicit Types (x y v : Qc) (u : units.t).

Lemma Math_floor_le x : Math_floor x ≤ x.
Proof. unfold Math_floor, Qcle. simpl. apply Qfloor_le. Qed.

Lemma Math_floor_lt x : x < Math_floor x + 1.
Proof.
  unfold Math_floor, Qclt. simpl. rewrite Qred_correct.
  change (Qred 1) with (inject_Z 1). rewrite <- inject_Z_plus.
  apply Qlt_floor.
Qed.

Lemma Math_min_le_l x y : Math_min x y ≤ x.
Proof.
  unfold Math_min. case_bool_decide as H; [done |].
  apply Qclt_le_weak. by apply Qclt_nge.
Qed.

Lemma Math_min_le_r x y : Math_min x y ≤ y.
Proof. unfold Math_min. by case_bool_decide. Qed.

Lemma units_bytes_pos u : 0 < units.bytes u.
Proof. by destruct u. Qed.

Lemma units_bytes_ne_0 u : units.bytes u ≠ 0.
Proof. by destruct u. Qed.

Lemma convertToUnit_to_bytes v u : convertToUnit v u units.B = v * units.bytes u.
Proof.
  unfold convertToUnit.
  replace (units.bytes units.B) with (1 : Qc) by (by apply Qc_is_canon).
  by rewrite (right_id 1 Qcdiv).
Qed.

(** The quantity, in bytes, is the same before and after a conversion. *)
Lemma convertToUnit_preserves_bytes v u1 u2 :
  convertToUnit v u1 u2 * units.bytes u2 = v * units.bytes u1.
Proof. unfold convertToUnit. field. apply units_bytes_ne_0. Qed.

Lemma convertToUnit_round_trip v u1 u2 :
  convertToUnit (convertToUnit v u1 u2) u2 u1 = v.
Proof.
  unfold convertToUnit. field. split; apply units_bytes_ne_0.
Qed.

Lemma convertToUnit_same v u : convertToUnit v u u = v.
Proof. unfold convertToUnit. field. apply units_bytes_ne_0. Qed.

Lemma convertToUnit_le x y u1 u2 :
  x ≤ y → convertToUnit x u1 u2 ≤ convertToUnit y u1 u2.
Proof.
  intros H. unfold convertToUnit, Qcdiv.
  rewrite <- !Qcmult_assoc. apply Qcmult_le_compat_r; [done |].
  apply Qclt_le_weak, Qcmult_pos_pos.
  - apply units_bytes_pos.
  - apply Qcinv_pos, units_bytes_pos.
Qed.

Lemma convertToUnit_lt x y u1 u2 :
  x < y → convertToUnit x u1 u2 < convertToUnit y u1 u2.
Proof.
  intros H. unfold convertToUnit, Qcdiv.
  rewrite <- !Qcmult_assoc. apply Qcmult_lt_compat_r; [|done].
  apply Qcmult_pos_pos.
  - apply units_bytes_pos.
  - apply Qcinv_pos, units_bytes_pos.
Qed.
End Numbers.

(** ** The validation report *)

Section Report.
Variable permission : Permission.
Implicit Types (vmParams : VmParams) (validationFailed : gmap string message).

Section Steps.
Variables (vmParams : VmParams) (vf : gmap string message).

Lemma name_step :
  (if isEmpty (Some (trim (vmName vmParams))) then
     <["vmName" := gettext "Name must not be empty"]> vf
   else if existsb (fun vm => str_eqb (vm_name vm) (vmName vmParams))
                   (vms vmParams) then
     <["vmName" := cockpit_format (gettext "VM $0 already exists")
                     [ArgString (vmName vmParams)]]> vf
   else vf)
  = record_failure "vmName" (name_failure vmParams) vf.
Proof. unfold name_failure. by repeat case_match. Qed.

Lemma os_step :
  match os vmParams with
  | None =>
      <["os" := gettext "You need to select the most closely matching Operating System"]> vf
  | Some _ => vf
  end = record_failure "os" (os_failure vmParams) vf.
Proof. unfold os_failure. by case_match. Qed.

Lemma source_step :
  (if negb (isEmpty (if truthy_str (source vmParams)
                     then trim <$> source vmParams else None)) then
     if str_eqb (sourceType vmParams) PXE_SOURCE then vf
     else if str_eqb (sourceType vmParams) LOCAL_INSTALL_MEDIA_SOURCE
             || str_eqb (sourceType vmParams) EXISTING_DISK_IMAGE_SOURCE then
       if negb (startsWith (default [] (source vmParams)) (lit "/")) then
         <["source" := gettext "Invalid filename"]> vf
       else vf
     else
       if negb (startsWith (default [] (source vmParams)) (lit "http"))
          && negb (startsWith (default [] (source vmParams)) (lit "ftp"))
          && negb (startsWith (default [] (source vmParams)) (lit "nfs")) then
         <["source" := gettext "Source should start with http, ftp or nfs protocol"]> vf
       else vf
   else if negb (str_eqb (sourceType vmParams) DOWNLOAD_AN_OS) then
     <["source" := gettext "Installation Source must not be empty"]> vf
   else vf)
  = record_failure "source" (source_failure vmParams) vf.
Proof. unfold source_failure. lazy zeta. by repeat case_match. Qed.

Lemma memory_step :
  (if bool_decide (memorySize vmParams = 0) then
     <["memory" := gettext "Memory must not be 0"]> vf
   else
     match os vmParams with
     | Some o =>
         if truthy_num (ram (minimumResources o))
            && bool_decide
                 (convertToUnit (memorySize vmParams) (memorySizeUnit vmParams) units.B
                  < default 0 (ram (minimumResources o))) then
           <["memory" :=
               cockpit_format
                 (gettext "The selected Operating System has minimum memory requirement of $0 $1")
                 [ArgNumber (convertToUnit (default 0 (ram (minimumResources o)))
                               units.B (memorySizeUnit vmParams));
                  ArgString (units.name (memorySizeUnit vmParams))]]> vf
         else vf
     | None => vf
     end)
  = record_failure "memory" (memory_failure vmParams) vf.
Proof. unfold memory_failure. by repeat case_match. Qed.

Lemma storage_step :
  (if negb (str_eqb (sourceType vmParams) EXISTING_DISK_IMAGE_SOURCE)
      && str_eqb (storagePool vmParams) (lit "NewVolume") then
     if bool_decide (storageSize vmParams = 0) then
       <["storage" := gettext "Storage size must not be 0"]> vf
     else
       match os vmParams with
       | Some o =>
           if truthy_num (storage (minimumResources o))
              && bool_decide
                   (convertToUnit (storageSize vmParams) (storageSizeUnit vmParams) units.B
                    < default 0 (storage (minimumResources o))) then
             <["storage" :=
                 cockpit_format
                   (gettext "The selected Operating System has minimum storage size requirement of $0 $1")
                   [ArgNumber (convertToUnit (default 0 (storage (minimumResources o)))
                                 units.B (storageSizeUnit vmParams));
                    ArgString (units.name (storageSizeUnit vmParams))]]> vf
           else vf
       | None => vf
       end
   else vf)
  = record_failure "storage" (storage_failure vmParams) vf.
Proof. unfold storage_failure. by repeat case_match. Qed.
End Steps.

(** The report of [validateParams] is made of the six entries. *)
Lemma validateParams_report vmParams :
  validateParams permission vmParams =
  (password ← password_failure permission vmParams;
   mret (record_failure "password" password
          (record_failure "storage" (storage_failure vmParams)
            (record_failure "memory" (memory_failure vmParams)
              (record_failure "source" (source_failure vmParams)
                (record_failure "os" (os_failure vmParams)
                  (record_failure "vmName" (name_failure vmParams) ∅))))))).
Proof.
  unfold validateParams. lazy zeta.
  rewrite name_step. generalize (record_failure "vmName" (name_failure vmParams) ∅).
  intros vf. rewrite os_step. generalize (record_failure "os" (os_failure vmParams) vf).
  clear vf. intros vf. rewrite source_step.
  generalize (record_failure "source" (source_failure vmParams) vf).
  clear vf. intros vf. rewrite memory_step.
  generalize (record_failure "memory" (memory_failure vmParams) vf).
  clear vf. intros vf. rewrite storage_step.
  generalize (record_failure "storage" (storage_failure vmParams) vf).
  clear vf. intros vf. unfold password_failure.
  destruct (unattendedInstallation vmParams && _); [|done].
  destruct (user permission) as [u|]; [|done]. simpl.
  by destruct (str_eqb (user_name u) (lit "root") || _).
Qed.
End Report.

Section Entries.
Variable permission : Permission.
Implicit Types (vmParams : VmParams) (validationFailed : gmap string message).

Lemma lookup_record_failure_ne key failure validationFailed k :
  key ≠ k →
  record_failure key failure validationFailed !! k = validationFailed !! k.
Proof. intros. destruct failure; simpl; [by rewrite lookup_insert_ne | done]. Qed.

Lemma lookup_record_failure_fresh key failure validationFailed :
  validationFailed !! key = None →
  record_failure key failure validationFailed !! key = failure.
Proof. intros. destruct failure; simpl; [by rewrite lookup_insert_eq | done]. Qed.

(** [validateParams] returns exactly when it does not have to read the
    name of a user that is not loaded. *)
Lemma validateParams_returns vmParams :
  user_available permission vmParams ↔
  ∃ validationFailed, validateParams permission vmParams = Returned validationFailed.
Proof.
  rewrite validateParams_report. unfold password_failure, user_available.
  destruct (unattendedInstallation vmParams); simpl.
  - destruct (rootPassword vmParams) as [|c r]; simpl.
    + destruct (user permission) as [u|]; simpl.
      * split; [intros _ | by eauto].
        destruct (str_eqb (user_name u) (lit "root") || _); simpl; eauto.
      * split; [intros H | by intros [? ?]].
        by destruct H as [? ?].
    + split; [by eauto | done].
  - split; [by eauto | done].
Qed.

(** What a returned report holds under each key. *)
Lemma validateParams_entries vmParams validationFailed :
  validateParams permission vmParams = Returned validationFailed →
  validationFailed !! "vmName" = name_failure vmParams
  ∧ validationFailed !! "os" = os_failure vmParams
  ∧ validationFailed !! "source" = source_failure vmParams
  ∧ validationFailed !! "memory" = memory_failure vmParams
  ∧ validationFailed !! "storage" = storage_failure vmParams
  ∧ password_failure permission vmParams = Returned (validationFailed !! "password").
Proof.
  rewrite validateParams_report.
  destruct (password_failure permission vmParams) as [password|]; [|done].
  simpl. intros [= <-].
  repeat split.
  all: repeat (rewrite lookup_record_failure_ne by done).
  all: try (rewrite lookup_record_failure_fresh; [done |]).
  all: repeat (rewrite lookup_record_failure_ne by done).
  all: try done.
Qed.

(** A report without entries: every rule passed. *)
Lemma validateParams_empty vmParams :
  validateParams permission vmParams = Returned ∅ ↔
  name_failure vmParams = None ∧ os_failure vmParams = None
  ∧ source_failure vmParams = None ∧ memory_failure vmParams = None
  ∧ storage_failure vmParams = None
  ∧ password_failure permission vmParams = Returned None.
Proof.
  split.
  - intros H. apply validateParams_entries in H.
    by rewrite !lookup_empty in H; destruct H as (<- & <- & <- & <- & <- & ->).
  - rewrite validateParams_report.
    by intros (-> & -> & -> & -> & -> & ->).
Qed.

Lemma name_failure_Some vmParams :
  is_Some (name_failure vmParams) ↔
  trim (vmName vmParams) = []
  ∨ ∃ vm, vm ∈ vms vmParams ∧ vm_name vm = vmName vmParams.
Proof.
  unfold name_failure.
  destruct (isEmpty (Some (trim (vmName vmParams)))) eqn:Hempty.
  - apply isEmpty_trim in Hempty. split; [by left | by eauto].
  - assert (trim (vmName vmParams) ≠ []) as Hne.
    { intros H. apply isEmpty_trim in H. congruence. }
    destruct (existsb _ _) eqn:Hex.
    + apply existsb_exists in Hex as (vm & Hin & Heq).
      apply bool_decide_eq_true in Heq. apply list_elem_of_In in Hin.
      split; [intros _; right; eauto | by eauto].
    + split; [by intros [? ?] |].
      intros [H | (vm & Hin & Heq)]; [done |].
      assert (existsb (λ vm, str_eqb (vm_name vm) (vmName vmParams))
                (vms vmParams) = true) as Hex'; [|congruence].
      apply existsb_exists. exists vm. split; [by apply list_elem_of_In |].
      by apply bool_decide_eq_true.
Qed.
End Entries.

(** ** The name entry *)

(** C1. [validateParams] returns a name failure exactly when [vmName] is
    empty after trimming or some VM of the list it is given has exactly that
    name. A VM of the same name in another connection never reaches the
    list: [onCreateClicked] and [render] keep the VMs of the draft's own
    connection only; such a draft gets no "already exists" failure, and no
    name failure at all unless its name is empty after trimming. The report
    exists whenever the call returns, see [user_available]. *)
Theorem validateParams_name_failure permission (vmParams : VmParams) :
  user_available permission vmParams →
  ∃ validationFailed,
    validateParams permission vmParams = Returned validationFailed
    ∧ (is_Some (validationFailed !! "vmName") ↔
         trim (vmName vmParams) = []
         ∨ ∃ vm, vm ∈ vms vmParams ∧ vm_name vm = vmName vmParams)
    ∧ ∀ all_vms,
        vms vmParams =
          filter (λ vm, vm_connectionName vm = connectionName vmParams) all_vms →
        (∀ vm, vm ∈ all_vms → vm_name vm = vmName vmParams →
               vm_connectionName vm ≠ connectionName vmParams) →
        validationFailed !! "vmName"
          ≠ Some (cockpit_format (gettext "VM $0 already exists")
                    [ArgString (vmName vmParams)])
        ∧ (trim (vmName vmParams) ≠ [] → validationFailed !! "vmName" = None).
Proof.
  intros Huser. apply validateParams_returns in Huser as [validationFailed Hret].
  exists validationFailed. split; [done |].
  apply validateParams_entries in Hret as (Hname & _).
  rewrite Hname. split; [apply name_failure_Some |].
  intros all_vms Hvms Hscope.
  assert (¬ ∃ vm, vm ∈ vms vmParams ∧ vm_name vm = vmName vmParams) as Hfree.
  { intros (vm & Hin & Heq). rewrite Hvms in Hin.
    apply list_elem_of_filter in Hin as [Hconn Hin]. by eapply Hscope. }
  split.
  - unfold name_failure. destruct (isEmpty _); [done |].
    destruct (existsb _ _) eqn:Hex; [|done].
    exfalso. apply Hfree. apply existsb_exists in Hex as (vm & Hin & Heq).
    exists vm. split; [by apply list_elem_of_In | by apply bool_decide_eq_true in Heq].
  - intros Hne. apply eq_None_not_Some. rewrite name_failure_Some.
    by intros [? | ?].
Qed.

(** The draft named "web" on the system connection: the only VM called
    "web" lives in the session connection. *)
Lemma validateParams_name_failure_witness :
  user_available sample_permission sample_draft
  ∧ ∃ validationFailed,
      validateParams sample_permission (validated sample_props sample_draft)
        = Returned validationFailed
      ∧ validationFailed !! "vmName" = None.
Proof.
  assert (user_available sample_permission sample_draft) as Huser.
  { intros H. discriminate H. }
  split; [exact Huser |].
  destruct (validateParams_name_failure sample_permission
              (validated sample_props sample_draft) Huser)
    as (validationFailed & Hret & _ & Hscope).
  exists validationFailed. split; [exact Hret |].
  apply (Hscope (props_vms sample_props)).
  - reflexivity.
  - intros vm Hin Hname. vm_compute in Hin.
    repeat (apply elem_of_cons in Hin as [-> | Hin]; [vm_compute in Hname |- *; congruence |]).
    by apply elem_of_nil in Hin.
  - vm_compute. discriminate.
Defined.

(** The comparison is by code units: "DB" does not collide with the VM
    "db". *)
Example validateParams_name_case_sensitive :
  validateParams sample_permission
    (validated sample_props (set_vmName (lit "DB") sample_draft)) = Returned ∅.
Proof. reflexivity. Qed.

(** C10, as the code has it. The collision check compares the untrimmed
    [vmName] with the existing names; only the emptiness check trims. So a
    draft whose name differs from the name of a listed VM by leading or
    trailing white space only gets no name failure, as long as the name is
    not empty after trimming and is not, as it stands, the name of some
    listed VM. *)
Theorem validateParams_padded_name permission (vmParams : VmParams) vm :
  user_available permission vmParams →
  vm ∈ vms vmParams →
  trim (vm_name vm) = trim (vmName vmParams) →
  trim (vmName vmParams) ≠ [] →
  (∀ vm', vm' ∈ vms vmParams → vm_name vm' ≠ vmName vmParams) →
  ∃ validationFailed,
    validateParams permission vmParams = Returned validationFailed
    ∧ validationFailed !! "vmName" = None.
Proof.
  intros Huser _ _ Hne Hfree.
  apply validateParams_returns in Huser as [validationFailed Hret].
  exists validationFailed. split; [done |].
  apply validateParams_entries in Hret as (-> & _).
  apply eq_None_not_Some. rewrite name_failure_Some.
  intros [? | (vm' & Hin & Heq)]; [done | by eapply Hfree].
Qed.

(** Tab, "db": the VM "db" exists, the padded name passes. *)
Lemma validateParams_padded_name_witness :
  ∃ validationFailed,
    validateParams sample_permission
      (validated sample_props sample_draft_tab_before) = Returned validationFailed
    ∧ validationFailed !! "vmName" = None.
Proof.
  apply (validateParams_padded_name sample_permission
           (validated sample_props sample_draft_tab_before)
           {| vm_name := lit "db"; vm_connectionName := lit "system" |}).
  - intros H. discriminate H.
  - vm_compute. apply list_elem_of_here.
  - reflexivity.
  - vm_compute. discriminate.
  - intros vm' Hin. vm_compute in Hin.
    repeat (apply elem_of_cons in Hin as [-> | Hin]; [vm_compute; congruence |]).
    by apply elem_of_nil in Hin.
Defined.

(** "db", tab: the name differs from the VM "db" by a trailing tab only, and
    it is rejected, because another VM has exactly this name. *)
Lemma validateParams_padded_name_taken :
  (∃ vm, vm ∈ vms (validated sample_props sample_draft_tab_after)
         ∧ vm_name vm ≠ vmName sample_draft_tab_after
         ∧ trim (vm_name vm) = trim (vmName sample_draft_tab_after))
  ∧ ∃ validationFailed,
      validateParams sample_permission
        (validated sample_props sample_draft_tab_after) = Returned validationFailed
      ∧ validationFailed !! "vmName"
        = Some (cockpit_format (gettext "VM $0 already exists")
                  [ArgString (lit "db" ++ [9%N])]).
Proof.
  split.
  - exists {| vm_name := lit "db"; vm_connectionName := lit "system" |}.
    split; [vm_compute; apply list_elem_of_here |].
    split; [vm_compute; congruence | reflexivity].
  - destruct (validateParams_returns sample_permission
                (validated sample_props sample_draft_tab_after)) as [Hret _].
    destruct Hret as [validationFailed Hret]; [intros H; discriminate H |].
    exists validationFailed. split; [done |].
    by apply validateParams_entries in Hret as (-> & _).
Qed.

(** ** The memory entry *)

Lemma memory_failure_zero (vmParams : VmParams) :
  memorySize vmParams = 0 → is_Some (memory_failure vmParams).
Proof.
  intros H. unfold memory_failure. rewrite bool_decide_eq_true_2 by done. eauto.
Qed.

Lemma memory_failure_nonzero (vmParams : VmParams) :
  memorySize vmParams ≠ 0 →
  is_Some (memory_failure vmParams) ↔
  ∃ o r, os vmParams = Some o ∧ ram (minimumResources o) = Some r ∧ r ≠ 0
         ∧ convertToUnit (memorySize vmParams) (memorySizeUnit vmParams) units.B < r.
Proof.
  intros H. unfold memory_failure. rewrite bool_decide_eq_false_2 by done.
  destruct (os vmParams) as [o|]; [|split; [by intros [? ?] | by intros (? & ? & ? & _)]].
  destruct (ram (minimumResources o)) as [r|] eqn:Hram; simpl.
  - case_bool_decide as Hr; simpl.
    + split; [by intros [? ?] |].
      intros (? & r' & [= <-] & Hr' & Hne & _).
      rewrite Hram in Hr'. injection Hr' as <-. done.
    + case_bool_decide as Hlt.
      * split; [intros _; by exists o, r | by eauto].
      * split; [by intros [? ?] |].
        intros (? & r' & [= <-] & Hr' & _ & Hlt').
        rewrite Hram in Hr'. injection Hr' as <-. done.
  - split; [by intros [? ?] |].
    intros (? & r' & [= <-] & Hr' & _).
    rewrite Hram in Hr'. done.
Qed.

(** C2. A memory size of exactly zero always gives a memory failure,
    whatever the OS. Otherwise there is a memory failure exactly when an OS
    is selected, it states a minimum amount of RAM (a number other than
    zero: the code tests the field for truthiness), and the memory size
    converted from its unit to bytes is strictly below it. For a positive
    memory size the test for zero changes nothing: a stated requirement of
    zero bytes is never undercut. *)
Theorem validateParams_memory_failure permission (vmParams : VmParams) :
  user_available permission vmParams →
  ∃ validationFailed,
    validateParams permission vmParams = Returned validationFailed
    ∧ (memorySize vmParams = 0 → is_Some (validationFailed !! "memory"))
    ∧ (memorySize vmParams ≠ 0 →
       (is_Some (validationFailed !! "memory") ↔
        ∃ o r, os vmParams = Some o ∧ ram (minimumResources o) = Some r ∧ r ≠ 0
               ∧ convertToUnit (memorySize vmParams) (memorySizeUnit vmParams)
                   units.B < r))
    ∧ (0 < memorySize vmParams →
       (is_Some (validationFailed !! "memory") ↔
        ∃ o r, os vmParams = Some o ∧ ram (minimumResources o) = Some r
               ∧ convertToUnit (memorySize vmParams) (memorySizeUnit vmParams)
                   units.B < r)).
Proof.
  intros Huser. apply validateParams_returns in Huser as [validationFailed Hret].
  exists validationFailed. split; [done |].
  apply validateParams_entries in Hret as (_ & _ & _ & -> & _).
  split; [apply memory_failure_zero |].
  split; [apply memory_failure_nonzero |].
  intros Hpos.
  assert (memorySize vmParams ≠ 0) as Hne.
  { intros H. rewrite H in Hpos. by apply Qclt_not_eq in Hpos. }
  rewrite (memory_failure_nonzero _ Hne).
  split; [intros (o & r & ? & ? & _ & ?); by exists o, r |].
  intros (o & r & Hos & Hram & Hlt). exists o, r. repeat split; try done.
  intros ->. rewrite convertToUnit_to_bytes in Hlt.
  apply (Qclt_not_le _ _ Hlt), Qclt_le_weak.
  apply Qcmult_pos_pos; [done | apply units_bytes_pos].
Qed.

(** 1 GiB for an OS that needs 2 GiB: a memory failure. *)
Lemma validateParams_memory_failure_witness :
  ∃ validationFailed,
    validateParams sample_permission (validated sample_props sample_draft_small)
      = Returned validationFailed
    ∧ is_Some (validationFailed !! "memory").
Proof.
  destruct (validateParams_memory_failure sample_permission
              (validated sample_props sample_draft_small))
    as (validationFailed & Hret & _ & _ & Hpos).
  { intros H. discriminate H. }
  exists validationFailed. split; [exact Hret |].
  apply Hpos; [reflexivity |].
  exists sample_os_stored, (GiB_in_bytes 2).
  split; [reflexivity |]. split; reflexivity.
Defined.

(** ** The source entry *)

(** The trimmed source is not empty: the source is a string and some code
    unit of it is not white space. *)
Lemma trimmed_source_not_empty (src : option jsstring) :
  isEmpty (if truthy_str src then trim <$> src else None) = false ↔
  ∃ raw, src = Some raw ∧ trim raw ≠ [].
Proof.
  destruct src as [[|c raw]|]; simpl.
  - split; [done | by intros (? & [= <-] & ?)].
  - rewrite bool_decide_eq_false. split.
    + intros H. exists (c :: raw). split; [done |].
      intros Heq. by rewrite Heq in H.
    + intros (? & [= <-] & H) Hlen. by apply nil_length_inv in Hlen.
  - split; [done | by intros (? & ? & _)].
Qed.

Lemma source_failure_not_empty (vmParams : VmParams) raw :
  source vmParams = Some raw → trim raw ≠ [] →
  source_failure vmParams =
    if str_eqb (sourceType vmParams) PXE_SOURCE then None
    else if str_eqb (sourceType vmParams) LOCAL_INSTALL_MEDIA_SOURCE
            || str_eqb (sourceType vmParams) EXISTING_DISK_IMAGE_SOURCE then
      if negb (startsWith raw (lit "/")) then Some (gettext "Invalid filename")
      else None
    else
      if negb (startsWith raw (lit "http"))
         && negb (startsWith raw (lit "ftp"))
         && negb (startsWith raw (lit "nfs")) then
        Some (gettext "Source should start with http, ftp or nfs protocol")
      else None.
Proof.
  intros Hsrc Hne. unfold source_failure. lazy zeta.
  assert (isEmpty (if truthy_str (source vmParams)
                   then trim <$> source vmParams else None) = false) as ->.
  { apply trimmed_source_not_empty. eauto. }
  by rewrite Hsrc.
Qed.

Lemma source_failure_empty (vmParams : VmParams) :
  (source vmParams = None ∨ ∃ raw, source vmParams = Some raw ∧ trim raw = []) →
  source_failure vmParams =
    if negb (str_eqb (sourceType vmParams) DOWNLOAD_AN_OS) then
      Some (gettext "Installation Source must not be empty")
    else None.
Proof.
  intros Hsrc. unfold source_failure. lazy zeta.
  assert (isEmpty (if truthy_str (source vmParams)
                   then trim <$> source vmParams else None) = true) as ->; [|done].
  apply not_false_iff_true. rewrite trimmed_source_not_empty.
  intros (raw & Heq & Hne).
  destruct Hsrc as [Hnone | (raw' & Heq' & Hnil)]; congruence.
Qed.

(** C5. For a source that is not empty after trimming there is a source
    failure exactly when the type is local media or existing disk image and
    the source (as entered) does not start with "/", or the type is none of
    network boot, local media and existing disk image and the source starts
    with none of "http", "ftp", "nfs"; with network boot there is none. For
    a source that is missing or empty after trimming there is a source
    failure exactly when the type is not "download an OS". *)
Theorem validateParams_source_failure permission (vmParams : VmParams) :
  user_available permission vmParams →
  ∃ validationFailed,
    validateParams permission vmParams = Returned validationFailed
    ∧ (∀ raw, source vmParams = Some raw → trim raw ≠ [] →
         (is_Some (validationFailed !! "source") ↔
            ((sourceType vmParams = LOCAL_INSTALL_MEDIA_SOURCE
              ∨ sourceType vmParams = EXISTING_DISK_IMAGE_SOURCE)
             ∧ ¬ lit "/" `prefix_of` raw)
            ∨ (sourceType vmParams ≠ PXE_SOURCE
               ∧ sourceType vmParams ≠ LOCAL_INSTALL_MEDIA_SOURCE
               ∧ sourceType vmParams ≠ EXISTING_DISK_IMAGE_SOURCE
               ∧ ¬ lit "http" `prefix_of` raw
               ∧ ¬ lit "ftp" `prefix_of` raw
               ∧ ¬ lit "nfs" `prefix_of` raw))
         ∧ (sourceType vmParams = PXE_SOURCE →
            validationFailed !! "source" = None))
    ∧ ((source vmParams = None
        ∨ ∃ raw, source vmParams = Some raw ∧ trim raw = []) →
       (is_Some (validationFailed !! "source") ↔
        sourceType vmParams ≠ DOWNLOAD_AN_OS)).
Proof.
  intros Huser. apply validateParams_returns in Huser as [validationFailed Hret].
  exists validationFailed. split; [done |].
  apply validateParams_entries in Hret as (_ & _ & -> & _).
  split.
  - intros raw Hsrc Hne. rewrite (source_failure_not_empty _ _ Hsrc Hne).
    unfold str_eqb. generalize (sourceType vmParams). intros type.
    destruct (decide (type = PXE_SOURCE)) as [-> | Hpxe].
    { rewrite bool_decide_eq_true_2 by done. split; [|done].
      split; [by intros [? ?] |].
      intros [[[Ha | Ha] _] | (Hb & _)]; [discriminate Ha.. | done]. }
    rewrite (bool_decide_eq_false_2 _ Hpxe). split; [|done].
    destruct (decide (type = LOCAL_INSTALL_MEDIA_SOURCE)) as [-> | Hfile].
    { rewrite bool_decide_eq_true_2 by done. simpl.
      destruct (startsWith raw (lit "/")) eqn:Hp; simpl.
      - apply startsWith_prefix in Hp. split; [by intros [? ?] |].
        intros [[_ ?] | (_ & ? & _)]; done.
      - apply startsWith_not_prefix in Hp.
        split; [intros _; left; split; [by left | done] | by eauto]. }
    rewrite (bool_decide_eq_false_2 _ Hfile). simpl.
    destruct (decide (type = EXISTING_DISK_IMAGE_SOURCE)) as [-> | Hdisk].
    { rewrite bool_decide_eq_true_2 by done.
      destruct (startsWith raw (lit "/")) eqn:Hp; simpl.
      - apply startsWith_prefix in Hp. split; [by intros [? ?] |].
        intros [[_ ?] | (_ & _ & ? & _)]; done.
      - apply startsWith_not_prefix in Hp.
        split; [intros _; left; split; [by right | done] | by eauto]. }
    rewrite (bool_decide_eq_false_2 _ Hdisk).
    destruct (startsWith raw (lit "http")) eqn:Hhttp;
      [apply startsWith_prefix in Hhttp | apply startsWith_not_prefix in Hhttp];
      simpl.
    { split; [by intros [? ?] |].
      intros [[[? | ?] _] | (_ & _ & _ & ? & _)]; done. }
    destruct (startsWith raw (lit "ftp")) eqn:Hftp;
      [apply startsWith_prefix in Hftp | apply startsWith_not_prefix in Hftp];
      simpl.
    { split; [by intros [? ?] |].
      intros [[[? | ?] _] | (_ & _ & _ & _ & ? & _)]; done. }
    destruct (startsWith raw (lit "nfs")) eqn:Hnfs;
      [apply startsWith_prefix in Hnfs | apply startsWith_not_prefix in Hnfs];
      simpl.
    { split; [by intros [? ?] |].
      intros [[[? | ?] _] | (_ & _ & _ & _ & _ & ?)]; done. }
    split; [intros _; by right | by eauto].
  - intros Hsrc. rewrite (source_failure_empty _ Hsrc).
    unfold str_eqb. case_bool_decide; simpl.
    + split; [by intros [? ?] | done].
    + split; [done | by eauto].
Qed.

(** A relative path as local install media: a source failure. *)
Lemma validateParams_source_failure_witness :
  ∃ validationFailed,
    validateParams sample_permission
      (validated sample_props (sample_draft_file (lit "images/f32.iso")))
      = Returned validationFailed
    ∧ is_Some (validationFailed !! "source").
Proof.
  destruct (validateParams_source_failure sample_permission
              (validated sample_props (sample_draft_file (lit "images/f32.iso"))))
    as (validationFailed & Hret & Hfull & _).
  { intros H. discriminate H. }
  exists validationFailed. split; [exact Hret |].
  apply (Hfull (lit "images/f32.iso")).
  - reflexivity.
  - vm_compute. discriminate.
  - left. split; [left; reflexivity |].
    intros H. apply startsWith_prefix in H. discriminate H.
Defined.

(** ** Submission *)

Lemma Object_getOwnPropertyNames_length (o : gmap string message) :
  (0 < length (Object_getOwnPropertyNames o))%nat ↔ o ≠ ∅.
Proof.
  unfold Object_getOwnPropertyNames.
  rewrite length_fmap, length_map_to_list, <- map_size_non_empty_iff. lia.
Qed.




(** ** The field update rule *)

(** The recursive equation of [onValueChanged]: the function is its body
    with the calls to itself going to the function. *)
Lemma onValueChanged_unfold permission props this_state kv pending :
  onValueChanged permission props this_state kv pending =
  onValueChanged_body permission props this_state
    (onValueChanged permission props this_state) kv pending.
Proof.
  unfold onValueChanged. destruct kv as [| | | | | | | | | | |[value|]| | | | |];
    try reflexivity.
Qed.

(** C8, as the code has it. The name rule stores the raw string with every
    space (code unit 32) replaced by an underscore (95) and every other code
    unit, other white space included, kept as it is; the stored name has no
    space, and no other field changes. *)
Theorem vmName_rule permission props (this_state : State) (raw : jsstring) :
  ∃ next,
    edit permission props this_state (K_vmName raw) = Returned next
    ∧ vmName next = ((λ c, if (c =? 32)%N then 95%N else c) <$> raw)
    ∧ ¬ (32%N ∈ vmName next)
    ∧ next = set_vmName (vmName next) this_state.
Proof.
  eexists. split; [reflexivity |]. simpl.
  change (lit "_") with [95%N]. rewrite join_split_replace.
  split; [done |]. split; [|done].
  intros Hin. apply list_elem_of_fmap in Hin as (c & Heq & _).
  destruct (c =? 32)%N eqn:Hc; [done |].
  apply N.eqb_neq in Hc. congruence.
Qed.

(** "my", tab, "vm": the tab is white space and it is stored. *)
Lemma vmName_rule_keeps_tab :
  ∃ next,
    edit sample_permission sample_props sample_state
      (K_vmName (lit "my" ++ [9%N] ++ lit "vm")) = Returned next
    ∧ vmName next = lit "my" ++ [9%N] ++ lit "vm"
    ∧ 9%N ∈ vmName next
    ∧ isWhiteSpace 9%N = true.
Proof.
  eexists. split; [reflexivity |]. split; [reflexivity |].
  split; [|reflexivity]. vm_compute. do 2 apply list_elem_of_further.
  apply list_elem_of_here.
Qed.

(** The sample draft is what the dialog holds after three edits. *)
Lemma sample_draft_reached :
  edit sample_permission sample_props sample_state (K_vmName (lit "web"))
    = Returned sample_named
  ∧ edit sample_permission sample_props sample_named (K_os (Some sample_os))
    = Returned sample_with_os
  ∧ edit sample_permission sample_props sample_with_os (K_memorySize (Qc_of_Z 2))
    = Returned sample_draft.
Proof. repeat split; reflexivity. Qed.

(** C4. The unit rules store the new unit and the old value converted from
    the old unit to the new one, so the quantity in bytes stays what it was.
    [convertToUnit] there and back gives the original value, exactly; and
    when the converted value is rounded down before it is converted back,
    the original lies within one step of the coarser unit above the
    result. *)
Theorem unit_rules permission props (this_state : State) (newUnit : units.t) :
  (∃ next,
     edit permission props this_state (K_memorySizeUnit newUnit) = Returned next
     ∧ memorySizeUnit next = newUnit
     ∧ memorySize next =
         convertToUnit (memorySize this_state) (memorySizeUnit this_state) newUnit
     ∧ memorySize next * units.bytes (memorySizeUnit next) =
         memorySize this_state * units.bytes (memorySizeUnit this_state))
  ∧ (∃ next,
       edit permission props this_state (K_storageSizeUnit newUnit) = Returned next
       ∧ storageSizeUnit next = newUnit
       ∧ storageSize next =
           convertToUnit (storageSize this_state) (storageSizeUnit this_state) newUnit
       ∧ storageSize next * units.bytes (storageSizeUnit next) =
           storageSize this_state * units.bytes (storageSizeUnit this_state))
  ∧ (∀ v u1 u2, convertToUnit (convertToUnit v u1 u2) u2 u1 = v)
  ∧ (∀ v u1 u2,
       convertToUnit (Math_floor (convertToUnit v u1 u2)) u2 u1 ≤ v
       ∧ v < convertToUnit (Math_floor (convertToUnit v u1 u2) + 1) u2 u1).
Proof.
  split; [|split; [|split]].
  - eexists. split; [reflexivity |]. simpl.
    split; [done |]. split; [done |]. apply convertToUnit_preserves_bytes.
  - eexists. split; [reflexivity |]. simpl.
    split; [done |]. split; [done |]. apply convertToUnit_preserves_bytes.
  - apply convertToUnit_round_trip.
  - intros v u1 u2. split.
    + rewrite <- (convertToUnit_round_trip v u1 u2) at 2.
      apply convertToUnit_le, Math_floor_le.
    + rewrite <- (convertToUnit_round_trip v u1 u2) at 1.
      apply convertToUnit_lt, Math_floor_lt.
Qed.

(** C6, as the code has it. The memory rule stores the smaller of the raw
    value and the node maximum (given in KiB) converted to the current unit
    and rounded down; the stored value never exceeds the node maximum in the
    current unit. There is no lower bound: a raw value that is not above
    that maximum is stored as it is. *)
Theorem memorySize_rule permission props (this_state : State) (raw : Qc) :
  ∃ next,
    edit permission props this_state (K_memorySize raw) = Returned next
    ∧ memorySizeUnit next = memorySizeUnit this_state
    ∧ memorySize next =
        Math_min raw
          (Math_floor (convertToUnit (nodeMaxMemory props) units.KiB
                         (memorySizeUnit this_state)))
    ∧ memorySize next
        ≤ convertToUnit (nodeMaxMemory props) units.KiB (memorySizeUnit next)
    ∧ (raw ≤ Math_floor (convertToUnit (nodeMaxMemory props) units.KiB
                           (memorySizeUnit this_state)) →
       memorySize next = raw).
Proof.
  eexists. split; [reflexivity |]. simpl.
  split; [done |]. split; [done |]. split.
  - etrans; [apply Math_min_le_r | apply Math_floor_le].
  - intros H. unfold Math_min. by rewrite bool_decide_eq_true_2.
Qed.

(** Half a GiB on the 8 GiB host is stored as entered. *)
Lemma memorySize_rule_witness :
  ∃ next,
    edit sample_permission sample_props sample_draft (K_memorySize (Q2Qc (1 # 2)))
      = Returned next
    ∧ memorySize next = Q2Qc (1 # 2).
Proof.
  destruct (memorySize_rule sample_permission sample_props sample_draft
              (Q2Qc (1 # 2))) as (next & Hedit & _ & _ & _ & Hkeep).
  exists next. split; [exact Hedit |].
  apply Hkeep. vm_compute. discriminate.
Defined.

(** The OS of the draft needs 2 GiB; a raw value of 1 (GiB) is stored, below
    the minimum of the OS converted to the current unit. *)
Lemma memorySize_rule_below_minimum :
  ∃ next o r,
    edit sample_permission sample_props sample_draft (K_memorySize (Qc_of_Z 1))
      = Returned next
    ∧ os next = Some o
    ∧ ram (minimumResources o) = Some r
    ∧ memorySize next < convertToUnit r units.B (memorySizeUnit next).
Proof.
  eexists _, sample_os_stored, (GiB_in_bytes 2).
  split; [reflexivity |]. split; [reflexivity |]. split; reflexivity.
Qed.

(** The stored value may lie below the OS minimum; the value the memory row
    displays does not. *)
Lemma MemoryRow_value_ge_minimum (this_state : State) :
  MemoryRow_minValue this_state ≤ MemoryRow_value this_state
  ∧ memorySize this_state ≤ MemoryRow_value this_state.
Proof.
  unfold MemoryRow_value, MemoryRow_minValue, Math_max.
  case_bool_decide as H; split; try done.
  apply Qclt_le_weak. by apply Qclt_nge.
Qed.

(** The default network source is a string, and not an empty one, as soon as
    there is a virtual network or a host network device to boot from. *)
Lemma getPXEInitialNetworkSource_not_empty nodeDevices virtualNetworks :
  virtualNetworks ≠ []
  ∨ (∃ dev, dev ∈ nodeDevices ∧ capability_type dev = lit "net") →
  ∃ src, getPXEInitialNetworkSource nodeDevices virtualNetworks = Some src
         ∧ src ≠ [].
Proof.
  intros H. unfold getPXEInitialNetworkSource.
  destruct virtualNetworks as [|network rest]; [|by eauto].
  destruct H as [? | (dev & Hin & Hnet)]; [done |].
  destruct (filter _ nodeDevices) as [|dev' rest] eqn:Hf; [|by eauto].
  exfalso. eapply (filter_nil_not_elem_of _ _ dev); eauto.
Qed.

Lemma includes_startsWith s p : startsWith s p = true → includes s p = true.
Proof. destruct s; simpl; by intros ->. Qed.

(** The modelled default is one of the two shapes the network boot row of
    the dialog looks for in the source. *)
Lemma getPXEInitialNetworkSource_shape nodeDevices virtualNetworks src :
  getPXEInitialNetworkSource nodeDevices virtualNetworks = Some src →
  includes src (lit "type=direct") = true ∨ includes src (lit "network=") = true.
Proof.
  unfold getPXEInitialNetworkSource.
  destruct virtualNetworks as [|network rest].
  - destruct (filter _ nodeDevices) as [|dev rest]; [done |].
    intros [= <-]. left. apply includes_startsWith, startsWith_prefix.
    by exists (lit ",source=" ++ capability_interface dev).
  - intros [= <-]. right. apply includes_startsWith, startsWith_prefix.
    by exists (network_name network).
Qed.

(** C7. The source type rule stores the new type. Leaving network boot for
    another type sets the source to the empty string. Choosing network boot
    sets the source to the default computed from the node devices and
    networks of the draft's connection, which is a non-empty string when
    that connection has a virtual network or a host network device. *)
Theorem sourceType_rule permission props (this_state : State) (value : jsstring) :
  ∃ next,
    edit permission props this_state (K_sourceType value) = Returned next
    ∧ sourceType next = value
    ∧ (sourceType this_state = PXE_SOURCE → value ≠ PXE_SOURCE →
       source next = Some [])
    ∧ (value = PXE_SOURCE →
       source next =
         getPXEInitialNetworkSource
           (filter (λ dev, device_connectionName dev = connectionName this_state)
                   (nodeDevices props))
           (filter (λ network,
                      network_connectionName network = connectionName this_state)
                   (networks props))
       ∧ ((∃ network, network ∈ networks props
                      ∧ network_connectionName network = connectionName this_state)
          ∨ (∃ dev, dev ∈ nodeDevices props
                    ∧ device_connectionName dev = connectionName this_state
                    ∧ capability_type dev = lit "net") →
          ∃ src, source next = Some src ∧ src ≠ [])).
Proof.
  unfold edit, onValueChanged. simpl. unfold str_eqb.
  destruct (decide (value = PXE_SOURCE)) as [-> | Hne].
  - rewrite bool_decide_eq_true_2 by done. eexists. split; [reflexivity |].
    simpl. split; [done |]. split; [done |]. intros _. split; [done |].
    intros H. apply getPXEInitialNetworkSource_not_empty.
    destruct H as [(network & Hin & Hconn) | (dev & Hin & Hconn & Hnet)].
    + left. intros Hnil.
      eapply (filter_nil_not_elem_of _ _ network); eauto.
    + right. exists dev. split; [|done]. by apply list_elem_of_filter.
  - rewrite (bool_decide_eq_false_2 _ Hne).
    destruct (decide (sourceType this_state = PXE_SOURCE)) as [Hpxe | Hpxe].
    + rewrite (bool_decide_eq_true_2 _ Hpxe). simpl.
      eexists. split; [reflexivity |]. by simpl.
    + rewrite (bool_decide_eq_false_2 _ Hpxe). simpl.
      eexists. split; [reflexivity |]. by simpl.
Qed.

(** On the sample page: network boot picks the default network, and going
    back to a URL clears it. *)
Lemma sourceType_rule_witness :
  ∃ pxe next,
    edit sample_permission sample_props sample_draft (K_sourceType PXE_SOURCE)
      = Returned pxe
    ∧ source pxe = Some (lit "network=default")
    ∧ edit sample_permission sample_props pxe (K_sourceType URL_SOURCE)
      = Returned next
    ∧ source next = Some [].
Proof.
  destruct (sourceType_rule sample_permission sample_props sample_draft
              PXE_SOURCE) as (pxe & Hpxe & Htype & _ & Hdefault).
  destruct (Hdefault eq_refl) as [Hsrc _].
  destruct (sourceType_rule sample_permission sample_props pxe URL_SOURCE)
    as (next & Hnext & _ & Hclear & _).
  exists pxe, next. split; [exact Hpxe |]. split.
  - rewrite Hsrc. injection Hpxe as <-. reflexivity.
  - split; [exact Hnext |]. apply Hclear; [exact Htype | discriminate].
Defined.

(** Moving a network boot draft to the session connection: the rule calls
    itself for the source type, which becomes local media with an empty
    source. *)
Lemma connectionName_rule_session permission props (this_state : State) :
  sourceType this_state = PXE_SOURCE →
  ∃ next,
    edit permission props this_state (K_connectionName LIBVIRT_SESSION_CONNECTION)
      = Returned next
    ∧ connectionName next = LIBVIRT_SESSION_CONNECTION
    ∧ sourceType next = LOCAL_INSTALL_MEDIA_SOURCE
    ∧ source next = Some [].
Proof.
  intros Hpxe. unfold edit, onValueChanged, onValueChanged_body. simpl.
  rewrite Hpxe. simpl.
  case_match; eexists; (split; [reflexivity |]); by simpl.
Qed.

(** C9. The unattended installation rule sets [startVm] to true whatever
    value it stores, [false] included. The OS rule calls it with [false]
    for an OS that cannot be installed unattended, so the draft leaves that
    rule with [startVm] true and unattended installation off. *)
Theorem unattendedInstallation_rule permission props (this_state : State) :
  (∀ value,
     ∃ next,
       edit permission props this_state (K_unattendedInstallation value)
         = Returned next
       ∧ startVm next = true
       ∧ unattendedInstallation next = value)
  ∧ (∀ o, unattendedInstallable o = false →
       ∃ next,
         edit permission props this_state (K_os (Some o)) = Returned next
         ∧ startVm next = true
         ∧ unattendedInstallation next = false).
Proof.
  split.
  - intros value. eexists. split; [reflexivity |]. by simpl.
  - intros o Ho. unfold edit, onValueChanged, onValueChanged_body. simpl.
    rewrite Ho. simpl.
    repeat case_match; simpl; eexists; (split; [reflexivity |]); by simpl.
Qed.

(** A draft that was not to start its VM, and an OS that has to be installed
    by hand: the draft comes out set to start the VM. *)
Lemma unattendedInstallation_rule_witness :
  ∃ next,
    edit sample_permission sample_props (set_startVm false sample_draft)
      (K_os (Some sample_os_attended)) = Returned next
    ∧ startVm next = true
    ∧ unattendedInstallation next = false.
Proof.
  destruct (unattendedInstallation_rule sample_permission sample_props
              (set_startVm false sample_draft)) as [_ Hos].
  apply (Hos sample_os_attended). reflexivity.
Defined.

(** * Further properties of the dialog *)

(** ** The rest of the validation report *)

(** X1. [validateParams] throws exactly when unattended installation is on,
    no root password is set and [permission.user] is still [null]: the only
    place where it reads a field of a value that may be missing. *)
Theorem validateParams_TypeError permission (vmParams : VmParams) :
  validateParams permission vmParams = TypeError ↔
  unattendedInstallation vmParams = true
  ∧ rootPassword vmParams = []
  ∧ user permission = None.
Proof.
  rewrite validateParams_report. unfold password_failure.
  destruct (unattendedInstallation vmParams); simpl; [|by split; [|intros (? & _)]].
  destruct (rootPassword vmParams) as [|c r]; simpl; [|by split; [|intros (_ & ? & _)]].
  destruct (user permission) as [u|]; simpl; [|done].
  destruct (str_eqb _ _ || _); simpl; by split; [|intros (_ & _ & ?)].
Qed.

(** X2. The report has no keys but the six of the form sections. *)
Theorem validateParams_keys permission (vmParams : VmParams) validationFailed k :
  validateParams permission vmParams = Returned validationFailed →
  is_Some (validationFailed !! k) →
  k ∈ ["vmName"; "os"; "source"; "memory"; "storage"; "password"].
Proof.
  rewrite validateParams_report.
  destruct (password_failure permission vmParams) as [password|]; [|done].
  simpl. intros [= <-] Hk.
  destruct (decide (k ∈ ["vmName"; "os"; "source"; "memory"; "storage"; "password"]))
    as [|Hnot]; [done |].
  exfalso. rewrite !not_elem_of_cons in Hnot.
  destruct Hnot as (? & ? & ? & ? & ? & ? & _).
  rewrite !lookup_record_failure_ne, lookup_empty in Hk by done.
  by destruct Hk.
Qed.

(** The dialog as it opens has two entries, and both are among the six. *)
Lemma validateParams_keys_witness :
  ∃ validationFailed,
    validateParams sample_permission (validated sample_props sample_state)
      = Returned validationFailed
    ∧ is_Some (validationFailed !! "os")
    ∧ "os" ∈ ["vmName"; "os"; "source"; "memory"; "storage"; "password"].
Proof.
  eexists. split; [reflexivity |].
  assert (is_Some (os_failure (validated sample_props sample_state))) as Hos.
  { vm_compute. eauto. }
  split; [exact Hos |].
  apply (validateParams_keys sample_permission
           (validated sample_props sample_state) _ "os" eq_refl Hos).
Defined.

Lemma storage_failure_Some (vmParams : VmParams) :
  is_Some (storage_failure vmParams) ↔
  sourceType vmParams ≠ EXISTING_DISK_IMAGE_SOURCE
  ∧ storagePool vmParams = lit "NewVolume"
  ∧ (storageSize vmParams = 0
     ∨ ∃ o r, os vmParams = Some o ∧ storage (minimumResources o) = Some r
              ∧ r ≠ 0
              ∧ convertToUnit (storageSize vmParams) (storageSizeUnit vmParams)
                  units.B < r).
Proof.
  unfold storage_failure, str_eqb.
  case_bool_decide as Hdisk; simpl; [by split; [intros [? ?] | intros (? & _)] |].
  case_bool_decide as Hpool; simpl; [|by split; [intros [? ?] | intros (_ & ? & _)]].
  case_bool_decide as Hzero; [split; [by auto | by eauto] |].
  destruct (os vmParams) as [o|];
    [|split; [by intros [? ?] | by intros (_ & _ & [? | (? & ? & ? & _)])]].
  destruct (storage (minimumResources o)) as [r|] eqn:Hmin; simpl.
  - case_bool_decide as Hr; simpl.
    + split; [by intros [? ?] |].
      intros (_ & _ & [? | (? & r' & [= <-] & Hr' & Hne & _)]); [done |].
      rewrite Hmin in Hr'. injection Hr' as <-. done.
    + case_bool_decide as Hlt.
      * split; [|by eauto]. intros _. split; [done |]. split; [done |].
        right. by exists o, r.
      * split; [by intros [? ?] |].
        intros (_ & _ & [? | (? & r' & [= <-] & Hr' & _ & Hlt')]); [done |].
        rewrite Hmin in Hr'. injection Hr' as <-. done.
  - split; [by intros [? ?] |].
    intros (_ & _ & [? | (? & r' & [= <-] & Hr' & _)]); [done |].
    rewrite Hmin in Hr'. done.
Qed.

(** X3. The storage entry is written only for a draft that creates a new
    volume and does not import an existing disk image; there it is present
    exactly when the size is zero, or the selected OS states a (non-zero)
    minimum and the size in bytes is strictly below it. *)
Theorem validateParams_storage_failure permission (vmParams : VmParams) :
  user_available permission vmParams →
  ∃ validationFailed,
    validateParams permission vmParams = Returned validationFailed
    ∧ (is_Some (validationFailed !! "storage") ↔
       sourceType vmParams ≠ EXISTING_DISK_IMAGE_SOURCE
       ∧ storagePool vmParams = lit "NewVolume"
       ∧ (storageSize vmParams = 0
          ∨ ∃ o r, os vmParams = Some o ∧ storage (minimumResources o) = Some r
                   ∧ r ≠ 0
                   ∧ convertToUnit (storageSize vmParams)
                       (storageSizeUnit vmParams) units.B < r)).
Proof.
  intros Huser. apply validateParams_returns in Huser as [validationFailed Hret].
  exists validationFailed. split; [done |].
  apply validateParams_entries in Hret as (_ & _ & _ & _ & -> & _).
  apply storage_failure_Some.
Qed.

(** 4 GiB of storage for an OS that needs 5 GiB: a storage failure; the
    same size on an existing pool: none. *)
Lemma validateParams_storage_failure_witness :
  (∃ validationFailed,
     validateParams sample_permission
       (validated sample_props (set_storageSize (Qc_of_Z 4) sample_draft))
       = Returned validationFailed
     ∧ is_Some (validationFailed !! "storage"))
  ∧ ∃ validationFailed,
      validateParams sample_permission
        (validated sample_props
           (set_storagePool (lit "default")
              (set_storageSize (Qc_of_Z 4) sample_draft)))
        = Returned validationFailed
      ∧ ¬ is_Some (validationFailed !! "storage").
Proof.
  split.
  - destruct (validateParams_storage_failure sample_permission
                (validated sample_props (set_storageSize (Qc_of_Z 4) sample_draft)))
      as (validationFailed & Hret & Hiff).
    { intros H. discriminate H. }
    exists validationFailed. split; [exact Hret |]. apply Hiff.
    split; [discriminate |]. split; [reflexivity |]. right.
    exists sample_os_stored, (GiB_in_bytes 5).
    split; [reflexivity |]. split; [reflexivity |]. split; [discriminate | reflexivity].
  - destruct (validateParams_storage_failure sample_permission
                (validated sample_props
                   (set_storagePool (lit "default")
                      (set_storageSize (Qc_of_Z 4) sample_draft))))
      as (validationFailed & Hret & Hiff).
    { intros H. discriminate H. }
    exists validationFailed. split; [exact Hret |].
    intros H. apply Hiff in H as (_ & Hpool & _). discriminate Hpool.
Defined.

(** X4. With the user loaded, the password entry is present exactly when
    unattended installation is on, the root password is empty, and either
    the logged-in user is root or the user password is empty too: for root, a
    user password alone is not enough. *)
Theorem validateParams_password_failure permission (vmParams : VmParams) u :
  user permission = Some u →
  ∃ validationFailed,
    validateParams permission vmParams = Returned validationFailed
    ∧ (is_Some (validationFailed !! "password") ↔
       unattendedInstallation vmParams = true
       ∧ rootPassword vmParams = []
       ∧ (user_name u = lit "root" ∨ userPassword vmParams = [])).
Proof.
  intros Hu.
  destruct (validateParams_returns permission vmParams) as [Hret _].
  destruct Hret as [validationFailed Hret]; [intros _ _; by rewrite Hu |].
  exists validationFailed. split; [done |].
  apply validateParams_entries in Hret as (_ & _ & _ & _ & _ & Hpw).
  unfold password_failure in Hpw. rewrite Hu in Hpw.
  destruct (unattendedInstallation vmParams); simpl in Hpw;
    [|injection Hpw as <-; split; [by intros [? ?] | by intros (? & _)]].
  destruct (rootPassword vmParams) as [|c r]; simpl in Hpw;
    [|injection Hpw as <-; split; [by intros [? ?] | by intros (_ & ? & _)]].
  unfold str_eqb in Hpw. case_bool_decide as Hroot; simpl in Hpw.
  - injection Hpw as <-. split; [by auto | by eauto].
  - destruct (userPassword vmParams) as [|c r]; simpl in Hpw; injection Hpw as <-.
    + split; [by auto | by eauto].
    + split; [by intros [? ?] | by intros (_ & _ & [? | ?])].
Qed.

(** An administrator who turns unattended installation on without any
    password is told to set one; root with only a user password too. *)
Lemma validateParams_password_failure_witness :
  (∃ validationFailed,
     validateParams sample_permission
       (validated sample_props (set_unattendedInstallation true sample_draft))
       = Returned validationFailed
     ∧ is_Some (validationFailed !! "password"))
  ∧ ∃ validationFailed,
      validateParams
        {| user := Some {| user_name := lit "root"; user_home := lit "/root" |} |}
        (validated sample_props
           (set_userPassword (lit "secret")
              (set_unattendedInstallation true sample_draft)))
        = Returned validationFailed
      ∧ is_Some (validationFailed !! "password").
Proof.
  split.
  - destruct (validateParams_password_failure sample_permission
                (validated sample_props
                   (set_unattendedInstallation true sample_draft))
                {| user_name := lit "admin"; user_home := lit "/home/admin" |}
                eq_refl)
      as (validationFailed & Hret & Hiff).
    exists validationFailed. split; [exact Hret |]. apply Hiff.
    split; [reflexivity |]. split; [reflexivity |]. right. reflexivity.
  - destruct (validateParams_password_failure
                {| user := Some {| user_name := lit "root"; user_home := lit "/root" |} |}
                (validated sample_props
                   (set_userPassword (lit "secret")
                      (set_unattendedInstallation true sample_draft)))
                {| user_name := lit "root"; user_home := lit "/root" |}
                eq_refl)
      as (validationFailed & Hret & Hiff).
    exists validationFailed. split; [exact Hret |]. apply Hiff.
    split; [reflexivity |]. split; [reflexivity |]. left. reflexivity.
Defined.

(** X5. The OS entry is present exactly when no OS is selected; together
    with the other entries: a report is empty only for a draft with an OS. *)
Theorem validateParams_os_failure permission (vmParams : VmParams) :
  user_available permission vmParams →
  ∃ validationFailed,
    validateParams permission vmParams = Returned validationFailed
    ∧ (is_Some (validationFailed !! "os") ↔ os vmParams = None)
    ∧ (validationFailed = ∅ → is_Some (os vmParams)).
Proof.
  intros Huser. apply validateParams_returns in Huser as [validationFailed Hret].
  exists validationFailed. split; [done |].
  pose proof Hret as (_ & Hos & _)%validateParams_entries.
  rewrite Hos. unfold os_failure. split.
  - destruct (os vmParams); split; try done; by intros [? ?].
  - intros ->. rewrite lookup_empty in Hos. unfold os_failure in Hos.
    by destruct (os vmParams).
Qed.

Lemma validateParams_os_failure_witness :
  ∃ validationFailed,
    validateParams sample_permission (validated sample_props sample_named)
      = Returned validationFailed
    ∧ is_Some (validationFailed !! "os").
Proof.
  destruct (validateParams_os_failure sample_permission
              (validated sample_props sample_named))
    as (validationFailed & Hret & Hiff & _).
  { intros H. discriminate H. }
  exists validationFailed. split; [exact Hret |]. apply Hiff. reflexivity.
Defined.

(** ** Submitting, and the Create button *)

(** The validation does not read the two flags that submission sets. *)
Lemma validateParams_flags permission props (this_state : State) b b' :
  validateParams permission
    (validated props (set_validate b (set_inProgress b' this_state)))
  = validateParams permission (validated props this_state).
Proof. reflexivity. Qed.

Lemma onCreateClicked_cases permission props (this_state : State) :
  match validateParams permission (validated props this_state) with
  | Returned validation =>
      if bool_decide (validation = ∅) then
        onCreateClicked permission props this_state =
          Returned (set_validate false (set_inProgress true this_state),
                    [dispatch_createVm (snapshot this_state)])
      else
        onCreateClicked permission props this_state =
          Returned (set_validate true (set_inProgress false this_state), [])
  | TypeError => onCreateClicked permission props this_state = TypeError
  end.
Proof.
  unfold onCreateClicked. fold (validated props this_state).
  destruct (validateParams permission (validated props this_state))
    as [validation|]; [|done].
  simpl. case_bool_decide as Hempty.
  - subst. rewrite bool_decide_eq_false_2; [done |].
    rewrite Object_getOwnPropertyNames_length. by intros [].
  - rewrite bool_decide_eq_true_2; [done |].
    by apply Object_getOwnPropertyNames_length.
Qed.

Lemma createButton_isDisabled_cases permission props (this_state : State) :
  createButton_isDisabled permission props this_state =
  if validate this_state then
    match validateParams permission (validated props this_state) with
    | Returned validation => Returned (negb (bool_decide (validation = ∅)))
    | TypeError => TypeError
    end
  else Returned false.
Proof.
  unfold createButton_isDisabled, render_validationFailed.
  fold (validated props this_state).
  destruct (validate this_state); [|done].
  destruct (validateParams permission (validated props this_state))
    as [validation|]; [|done].
  simpl. unfold mret, outcome_ret. f_equal.
  destruct (decide (validation = ∅)) as [-> | Hne].
  - rewrite (bool_decide_eq_true_2 (∅ = ∅)) by done. simpl.
    rewrite bool_decide_eq_false_2; [done |].
    rewrite Object_getOwnPropertyNames_length. by intros [].
  - rewrite (bool_decide_eq_false_2 _ Hne). simpl.
    rewrite bool_decide_eq_true_2; [done |].
    by apply Object_getOwnPropertyNames_length.
Qed.

(** X6. A rejected submission changes nothing in the draft but the two
    flags; it leaves the Create button disabled, and a further submission of
    the same draft is rejected again without any change. *)
Theorem onCreateClicked_rejected permission props (this_state next : State) :
  onCreateClicked permission props this_state = Returned (next, []) →
  next = set_validate true (set_inProgress false this_state)
  ∧ createButton_isDisabled permission props next = Returned true
  ∧ onCreateClicked permission props next = Returned (next, []).
Proof.
  intros Hclick.
  pose proof (onCreateClicked_cases permission props this_state) as Hcases.
  destruct (validateParams permission (validated props this_state))
    as [validation|] eqn:Hret; [|congruence].
  case_bool_decide as Hempty; [congruence |].
  rewrite Hcases in Hclick. injection Hclick as <-.
  split; [done |]. split.
  - rewrite createButton_isDisabled_cases. simpl.
    rewrite validateParams_flags, Hret.
    by rewrite bool_decide_eq_false_2.
  - pose proof (onCreateClicked_cases permission props
                  (set_validate true (set_inProgress false this_state))) as Hnext.
    rewrite validateParams_flags, Hret in Hnext.
    by rewrite bool_decide_eq_false_2 in Hnext.
Qed.

(** The dialog as it opens: a first click is rejected, and so is a second. *)
Lemma onCreateClicked_rejected_witness :
  ∃ next,
    onCreateClicked sample_permission sample_props sample_state
      = Returned (next, [])
    ∧ validate next = true
    ∧ createButton_isDisabled sample_permission sample_props next = Returned true.
Proof.
  exists (set_validate true (set_inProgress false sample_state)).
  assert (onCreateClicked sample_permission sample_props sample_state
          = Returned (set_validate true (set_inProgress false sample_state), []))
    as Hclick by reflexivity.
  destruct (onCreateClicked_rejected sample_permission sample_props
              sample_state _ Hclick) as (_ & Hbutton & _).
  split; [exact Hclick |]. split; [reflexivity | exact Hbutton].
Defined.

(** X7. An accepted submission dispatches the snapshot of the draft and sets
    [inProgress]; neither the handler nor the button looks at that flag, so
    the button stays enabled and a second click dispatches the same snapshot
    once more. *)
Theorem onCreateClicked_accepted permission props (this_state next : State)
    vmParams :
  onCreateClicked permission props this_state
    = Returned (next, [dispatch_createVm vmParams]) →
  vmParams = snapshot this_state
  ∧ next = set_validate false (set_inProgress true this_state)
  ∧ createButton_isDisabled permission props next = Returned false
  ∧ onCreateClicked permission props next
    = Returned (next, [dispatch_createVm vmParams]).
Proof.
  intros Hclick.
  pose proof (onCreateClicked_cases permission props this_state) as Hcases.
  destruct (validateParams permission (validated props this_state))
    as [validation|] eqn:Hret; [|congruence].
  case_bool_decide as Hempty; [|congruence].
  rewrite Hcases in Hclick. injection Hclick as <- <-.
  split; [done |]. split; [done |]. split.
  - by rewrite createButton_isDisabled_cases.
  - pose proof (onCreateClicked_cases permission props
                  (set_validate false (set_inProgress true this_state))) as Hnext.
    rewrite validateParams_flags, Hret in Hnext.
    by rewrite bool_decide_eq_true_2 in Hnext.
Qed.

Lemma onCreateClicked_accepted_witness :
  ∃ next,
    onCreateClicked sample_permission sample_props sample_draft
      = Returned (next, [dispatch_createVm (snapshot sample_draft)])
    ∧ inProgress next = true
    ∧ onCreateClicked sample_permission sample_props next
      = Returned (next, [dispatch_createVm (snapshot sample_draft)]).
Proof.
  exists (set_validate false (set_inProgress true sample_draft)).
  assert (onCreateClicked sample_permission sample_props sample_draft
          = Returned (set_validate false (set_inProgress true sample_draft),
                      [dispatch_createVm (snapshot sample_draft)]))
    as Hclick by reflexivity.
  destruct (onCreateClicked_accepted sample_permission sample_props
              sample_draft _ _ Hclick) as (_ & _ & _ & Hagain).
  split; [exact Hclick |]. split; [reflexivity | exact Hagain].
Defined.

(** X8. The Create button is enabled as long as no submission has been
    rejected, whatever the draft; once [validate] is set it is enabled
    exactly when the report is empty, and a click on the enabled button then
    dispatches. *)
Theorem createButton_enabled permission props (this_state : State) :
  (validate this_state = false →
   createButton_isDisabled permission props this_state = Returned false)
  ∧ (validate this_state = true →
     (createButton_isDisabled permission props this_state = Returned false ↔
      validateParams permission (validated props this_state) = Returned ∅)
     ∧ (createButton_isDisabled permission props this_state = Returned false →
        onCreateClicked permission props this_state =
          Returned (set_validate false (set_inProgress true this_state),
                    [dispatch_createVm (snapshot this_state)]))).
Proof.
  rewrite createButton_isDisabled_cases.
  pose proof (onCreateClicked_cases permission props this_state) as Hcases.
  split; [by intros -> |]. intros ->.
  destruct (validateParams permission (validated props this_state))
    as [validation|]; [|by split; [split |]].
  case_bool_decide as Hempty; simpl; subst.
  - by split; [split |].
  - split; [split; [done | by intros [= ?]] | done].
Qed.

(** After the rejected first click the button of the passing draft is
    enabled again, and the click dispatches. *)
Lemma createButton_enabled_witness :
  createButton_isDisabled sample_permission sample_props
    (set_validate true sample_draft) = Returned false
  ∧ ∃ next,
      onCreateClicked sample_permission sample_props
        (set_validate true sample_draft)
      = Returned (next, [dispatch_createVm (snapshot sample_draft)]).
Proof.
  destruct (createButton_enabled sample_permission sample_props
              (set_validate true sample_draft)) as [_ Hshown].
  destruct (Hshown eq_refl) as [Hiff Hclick].
  assert (createButton_isDisabled sample_permission sample_props
            (set_validate true sample_draft) = Returned false) as Henabled.
  { apply Hiff. reflexivity. }
  split; [exact Henabled |]. eexists. apply Hclick, Henabled.
Defined.

Lemma convertToUnit_0 u1 u2 : convertToUnit 0 u1 u2 = 0.
Proof. unfold convertToUnit, Qcdiv. ring. Qed.

Lemma onCreateClicked_dispatch_inv permission props (this_state next : State)
    vmParams :
  onCreateClicked permission props this_state
    = Returned (next, [dispatch_createVm vmParams]) →
  vmParams = snapshot this_state
  ∧ validateParams permission (validated props this_state) = Returned ∅.
Proof.
  intros Hclick.
  pose proof (onCreateClicked_cases permission props this_state) as Hcases.
  destruct (validateParams permission (validated props this_state))
    as [validation|]; [|congruence].
  case_bool_decide as Hempty; [|congruence].
  rewrite Hcases in Hclick. injection Hclick as <- <-. by subst.
Qed.

(** X9. What [createVm] is ever handed. The name is not empty after
    trimming and is the name of no VM of the same connection; the OS is the
    short id of the selected OS; the memory and storage sizes are the
    draft's sizes converted to MiB and GiB, where the draft's memory size is
    not zero and, in bytes, not below a stated minimum of the OS, and the
    draft's storage size is not zero for a new volume; unless an OS is
    downloaded the source is not blank, and a local file or disk image path
    starts with "/"; with unattended installation some password is set.
    The sizes are bounded before the conversion, as the validation sees
    them: the division of the conversion is exact here, while on the
    program's floating-point numbers it can take a size below the smallest
    normal number to 0. *)
Theorem dispatched_snapshot permission props (this_state next : State) vmParams :
  onCreateClicked permission props this_state
    = Returned (next, [dispatch_createVm vmParams]) →
  trim (cv_vmName vmParams) ≠ []
  ∧ (∀ vm, vm ∈ props_vms props →
           vm_connectionName vm = cv_connectionName vmParams →
           vm_name vm ≠ cv_vmName vmParams)
  ∧ (∃ o, os this_state = Some o ∧ cv_os vmParams = shortId o)
  ∧ cv_memorySize vmParams =
      convertToUnit (memorySize this_state) (memorySizeUnit this_state) units.MiB
  ∧ memorySize this_state ≠ 0
  ∧ (∀ o r, os this_state = Some o → ram (minimumResources o) = Some r →
            r ≠ 0 →
            r ≤ convertToUnit (memorySize this_state) (memorySizeUnit this_state)
                  units.B)
  ∧ (cv_sourceType vmParams ≠ DOWNLOAD_AN_OS →
     ∃ raw, cv_source vmParams = Some raw ∧ trim raw ≠ [])
  ∧ (cv_sourceType vmParams = LOCAL_INSTALL_MEDIA_SOURCE
     ∨ cv_sourceType vmParams = EXISTING_DISK_IMAGE_SOURCE →
     ∃ raw, cv_source vmParams = Some raw ∧ lit "/" `prefix_of` raw)
  ∧ cv_storageSize vmParams =
      convertToUnit (storageSize this_state) (storageSizeUnit this_state) units.GiB
  ∧ (cv_storagePool vmParams = lit "NewVolume" →
     cv_sourceType vmParams ≠ EXISTING_DISK_IMAGE_SOURCE →
     storageSize this_state ≠ 0)
  ∧ (cv_unattended vmParams = true →
     cv_rootPassword vmParams ≠ [] ∨ cv_userPassword vmParams ≠ []).
Proof.
  intros (-> & Hret)%onCreateClicked_dispatch_inv.
  apply validateParams_empty in Hret
    as (Hname & Hos & Hsource & Hmemory & Hstorage & Hpassword).
  simpl.
  assert (¬ is_Some (name_failure (validated props this_state))) as Hname'
    by (rewrite Hname; by intros [? ?]).
  rewrite name_failure_Some in Hname'.
  assert (¬ is_Some (storage_failure (validated props this_state))) as Hstorage'
    by (rewrite Hstorage; by intros [? ?]).
  rewrite storage_failure_Some in Hstorage'.
  assert (memorySize this_state ≠ 0) as Hnonzero.
  { intros Hzero.
    destruct (memory_failure_zero (validated props this_state) Hzero) as [? H].
    congruence. }
  assert (∃ raw, source this_state = Some raw ∧ trim raw ≠ []
          ∨ sourceType this_state = DOWNLOAD_AN_OS) as Hsrc.
  { destruct (source this_state) as [raw|] eqn:Hraw.
    - exists raw. destruct (decide (trim raw = [])) as [Hblank | ?]; [|by left].
      right. rewrite source_failure_empty in Hsource by (right; eauto).
      unfold str_eqb in Hsource. by case_bool_decide.
    - exists []. right. rewrite source_failure_empty in Hsource by (by left).
      unfold str_eqb in Hsource. by case_bool_decide. }
  unfold os_failure, password_failure in *.
  cbn [draft validated vms] in *.
  repeat split.
  - intros Hblank. apply Hname'. by left.
  - intros vm Hin Hconn Heq. apply Hname'. right. exists vm. split; [|done].
    by apply list_elem_of_filter.
  - destruct (os this_state) as [o|]; [by eauto | done].
  - done.
  - intros o r Ho Hr Hne. apply Qcnot_lt_le. intros Hlt.
    assert (is_Some (memory_failure (validated props this_state))) as [? H];
      [|congruence].
    apply memory_failure_nonzero; [done |]. by exists o, r.
  - intros Htype. destruct Hsrc as (raw & [H | H]); [by eauto | done].
  - intros Htype. destruct Hsrc as (raw & [[Hraw Hfull] | Hdl]).
    + exists raw. split; [done |].
      rewrite (source_failure_not_empty (validated props this_state) raw
                 Hraw Hfull) in Hsource.
      unfold str_eqb in Hsource. cbn [draft validated] in Hsource.
      destruct Htype as [Htype | Htype]; rewrite Htype in Hsource;
        simpl in Hsource;
        destruct (startsWith raw (lit "/")) eqn:Hp; try done;
        by apply startsWith_prefix.
    + destruct Htype as [Htype | Htype]; rewrite Hdl in Htype; discriminate Htype.
  - intros Hpool Htype Hzero. apply Hstorage'.
    split; [done |]. split; [done |]. by left.
  - intros Hunattended. rewrite Hunattended in Hpassword.
    destruct (rootPassword this_state) as [|c r]; [|by left].
    right. simpl in Hpassword.
    destruct (user permission) as [u|]; [|done]. simpl in Hpassword.
    destruct (userPassword this_state) as [|c r]; [|done].
    by rewrite orb_true_r in Hpassword.
Qed.

(** The passing draft is dispatched as "web" on the system connection; its
    2 GiB are in bytes the 2 GiB that "fedora32" asks for, and are sent as
    2048 MiB. *)
Lemma dispatched_snapshot_witness :
  ∃ next vmParams,
    onCreateClicked sample_permission sample_props sample_draft
      = Returned (next, [dispatch_createVm vmParams])
    ∧ trim (cv_vmName vmParams) ≠ []
    ∧ cv_os vmParams = lit "fedora32"
    ∧ cv_memorySize vmParams = Qc_of_Z 2048
    ∧ GiB_in_bytes 2 ≤
        convertToUnit (memorySize sample_draft) (memorySizeUnit sample_draft)
          units.B.
Proof.
  exists (set_validate false (set_inProgress true sample_draft)),
         (snapshot sample_draft).
  assert (onCreateClicked sample_permission sample_props sample_draft
          = Returned (set_validate false (set_inProgress true sample_draft),
                      [dispatch_createVm (snapshot sample_draft)]))
    as Hclick by reflexivity.
  destruct (dispatched_snapshot sample_permission sample_props sample_draft
              _ _ Hclick) as (Hname & _ & _ & Hsent & _ & Hmin & _).
  split; [exact Hclick |]. split; [exact Hname |]. split; [reflexivity |].
  split.
  - rewrite Hsent. apply Qc_is_canon. reflexivity.
  - apply (Hmin sample_os_stored); [reflexivity | reflexivity | discriminate].
Defined.

(** ** Storage pools *)

Lemma find_Some {A} (pred : A → bool) (l : list A) x :
  find pred l = Some x → x ∈ l ∧ pred x = true.
Proof.
  induction l as [|y l IH]; simpl; [done |].
  destruct (pred y) eqn:Hy.
  - intros [= <-]. split; [apply list_elem_of_here | done].
  - intros H. destruct (IH H). split; [by apply list_elem_of_further | done].
Qed.

Lemma find_None {A} (pred : A → bool) (l : list A) :
  find pred l = None ↔ ∀ x, x ∈ l → pred x = false.
Proof.
  induction l as [|y l IH]; simpl.
  - split; [by intros _ x ?%elem_of_nil | done].
  - destruct (pred y) eqn:Hy.
    + split; [done |]. intros H. specialize (H y (list_elem_of_here _ _)). congruence.
    + rewrite IH. split.
      * intros H x [-> | Hin]%elem_of_cons; [done | by apply H].
      * intros H x Hin. by apply H, list_elem_of_further.
Qed.

Lemma getPoolSpaceAvailable_Some (storagePools : list StoragePool)
    (poolName poolPath : option jsstring) (connectionName : jsstring) a :
  getPoolSpaceAvailable storagePools poolName poolPath connectionName = Some a →
  ∃ pool, pool ∈ storagePools
          ∧ pool_connectionName pool = connectionName
          ∧ pool_available pool = a
          ∧ (if truthy_str poolName then Some (pool_name pool) = poolName
             else Some (pool_target_path pool) = poolPath).
Proof.
  unfold getPoolSpaceAvailable. intros Ha.
  destruct (truthy_str poolName);
    [|destruct (truthy_str poolPath); [|done]].
  all: apply fmap_Some in Ha as (pool & Hfind & ->).
  all: apply find_Some in Hfind as [[? ?]%list_elem_of_filter Hpred].
  all: apply bool_decide_eq_true in Hpred.
  all: by exists pool.
Qed.

(** X10. [getPoolSpaceAvailable] only ever answers with the available space
    of a pool of the requested connection: the one found by name when a name
    is given (the path is then ignored), else by path. Without name and
    path, and when a given name matches no pool of the connection, the
    answer is [undefined]. *)
Theorem getPoolSpaceAvailable_sound (storagePools : list StoragePool)
    (poolName poolPath : option jsstring) (connectionName : jsstring) :
  (∀ a, getPoolSpaceAvailable storagePools poolName poolPath connectionName
          = Some a →
        ∃ pool, pool ∈ storagePools
                ∧ pool_connectionName pool = connectionName
                ∧ pool_available pool = a
                ∧ (if truthy_str poolName then Some (pool_name pool) = poolName
                   else Some (pool_target_path pool) = poolPath))
  ∧ (truthy_str poolName = true →
     (getPoolSpaceAvailable storagePools poolName poolPath connectionName = None
      ↔ ∀ pool, pool ∈ storagePools →
                pool_connectionName pool = connectionName →
                Some (pool_name pool) ≠ poolName))
  ∧ (truthy_str poolName = false → truthy_str poolPath = false →
     getPoolSpaceAvailable storagePools poolName poolPath connectionName = None).
Proof.
  split; [apply getPoolSpaceAvailable_Some |].
  unfold getPoolSpaceAvailable. split.
  - intros ->. rewrite fmap_None, find_None. split.
    + intros H pool Hin Hconn. eapply bool_decide_eq_false_1.
      apply H. by apply list_elem_of_filter.
    + intros H pool [? ?]%list_elem_of_filter. apply bool_decide_eq_false_2.
      by apply H.
  - by intros -> ->.
Qed.

(** On the sample page the pool "default" of the system connection has
    100 GiB; the session connection has no pool at all. *)
Lemma getPoolSpaceAvailable_sound_witness :
  getPoolSpaceAvailable (storagePools sample_props) (Some (lit "default")) None
    (lit "session") = None.
Proof.
  destruct (getPoolSpaceAvailable_sound (storagePools sample_props)
              (Some (lit "default")) None (lit "session")) as (_ & Hnone & _).
  apply Hnone; [reflexivity |].
  intros pool Hin Hconn. vm_compute in Hin.
  apply elem_of_cons in Hin as [-> | Hin]; [discriminate Hconn |].
  by apply elem_of_nil in Hin.
Defined.

(** X11. The space [getSpaceAvailable] reports is that of a pool of the
    connection which is either called "default" (and then not zero: a
    "default" pool with no space left is passed over for the path lookup) or
    sits at the default image path of the connection: the system path, or the
    path under the home of the loaded user. For a session connection while
    the user is not loaded, only the "default" pool counts. *)
Theorem getSpaceAvailable_sound permission (storagePools : list StoragePool)
    (connectionName : jsstring) :
  (∀ a, getSpaceAvailable permission storagePools connectionName = Some a →
        ∃ pool, pool ∈ storagePools
                ∧ pool_connectionName pool = connectionName
                ∧ pool_available pool = a
                ∧ (pool_name pool = lit "default" ∧ a ≠ 0
                   ∨ connectionName = LIBVIRT_SYSTEM_CONNECTION
                     ∧ pool_target_path pool = lit "/var/lib/libvirt/images"
                   ∨ connectionName ≠ LIBVIRT_SYSTEM_CONNECTION
                     ∧ ∃ u, user permission = Some u
                            ∧ pool_target_path pool =
                                user_home u ++ lit "/.local/share/libvirt/images"))
  ∧ (connectionName ≠ LIBVIRT_SYSTEM_CONNECTION → user permission = None →
     ∀ a, getSpaceAvailable permission storagePools connectionName = Some a →
          a ≠ 0
          ∧ getPoolSpaceAvailable storagePools (Some (lit "default")) None
              connectionName = Some a).
Proof.
  unfold getSpaceAvailable. split.
  - intros a Ha.
    pose proof (getPoolSpaceAvailable_Some storagePools (Some (lit "default"))
                  None connectionName) as Hdefault.
    destruct (getPoolSpaceAvailable storagePools (Some (lit "default")) None
                connectionName) as [d|] eqn:Hd; simpl in Ha.
    + case_bool_decide as Hzero; simpl in Ha.
      * case_bool_decide as Hsys.
        -- pose proof (getPoolSpaceAvailable_Some storagePools None
                       (Some (lit "/var/lib/libvirt/images")) connectionName)
                       as Hpath.
           destruct (Hpath a Ha) as (pool & ? & ? & ? & [= ?]).
           exists pool. by eauto 10.
        -- destruct (user permission) as [u|] eqn:Hu; [|done].
           pose proof (getPoolSpaceAvailable_Some storagePools None
                       (Some (user_home u ++ lit "/.local/share/libvirt/images"))
                       connectionName) as Hpath.
           destruct (Hpath a Ha) as (pool & ? & ? & ? & [= ?]).
           exists pool. by eauto 10.
      * injection Ha as <-.
        destruct (Hdefault d eq_refl) as (pool & ? & ? & ? & [= ?]).
        exists pool. by eauto 10.
    + case_bool_decide as Hsys.
      * pose proof (getPoolSpaceAvailable_Some storagePools None
                    (Some (lit "/var/lib/libvirt/images")) connectionName)
                    as Hpath.
        destruct (Hpath a Ha) as (pool & ? & ? & ? & [= ?]).
        exists pool. by eauto 10.
      * destruct (user permission) as [u|] eqn:Hu; [|done].
        pose proof (getPoolSpaceAvailable_Some storagePools None
                    (Some (user_home u ++ lit "/.local/share/libvirt/images"))
                    connectionName) as Hpath.
        destruct (Hpath a Ha) as (pool & ? & ? & ? & [= ?]).
        exists pool. by eauto 10.
  - intros Hsys Hu a. rewrite Hu, (bool_decide_eq_false_2 _ Hsys).
    destruct (getPoolSpaceAvailable storagePools (Some (lit "default")) None
                connectionName) as [d|]; simpl; [|done].
    case_bool_decide; simpl; [done |]. by intros [= <-].
Qed.

Lemma getSpaceAvailable_sound_witness :
  getSpaceAvailable sample_permission (storagePools sample_props) (lit "system")
    = Some (GiB_in_bytes 100)
  ∧ ∃ pool, pool ∈ storagePools sample_props
            ∧ pool_available pool = GiB_in_bytes 100.
Proof.
  assert (getSpaceAvailable sample_permission (storagePools sample_props)
            (lit "system") = Some (GiB_in_bytes 100)) as Hspace by reflexivity.
  split; [exact Hspace |].
  destruct (getSpaceAvailable_sound sample_permission
              (storagePools sample_props) (lit "system")) as [Hsound _].
  destruct (Hsound _ Hspace) as (pool & Hin & _ & Havail & _).
  by exists pool.
Defined.

(** ** More rules of the field update *)

(** X12. The storage size rule never stores more than the raw value. When
    the free space of the connection's default pool is known and not zero,
    the stored size is the smaller of the raw value and that space converted
    to the current unit and rounded down, the same bound the storage row
    shows as its maximum; when it is not, the raw value is stored as it
    is. The unit stays. *)
Theorem storageSize_rule permission props (this_state : State) (raw : Qc) :
  ∃ next,
    edit permission props this_state (K_storageSize raw) = Returned next
    ∧ storageSizeUnit next = storageSizeUnit this_state
    ∧ storageSize next ≤ raw
    ∧ (∀ a, StorageRow_poolSpaceAvailable permission props this_state = Some a →
            a ≠ 0 →
            StorageRow_maxValue permission props this_state
              = Some (Math_floor (convertToUnit a units.B
                                    (storageSizeUnit this_state)))
            ∧ storageSize next =
                Math_min raw (Math_floor (convertToUnit a units.B
                                            (storageSizeUnit this_state)))
            ∧ storageSize next
                ≤ convertToUnit a units.B (storageSizeUnit this_state))
    ∧ (truthy_num (StorageRow_poolSpaceAvailable permission props this_state)
         = false →
       storageSize next = raw).
Proof.
  eexists. split; [reflexivity |]. simpl.
  unfold StorageRow_maxValue.
  fold (StorageRow_poolSpaceAvailable permission props this_state).
  destruct (StorageRow_poolSpaceAvailable permission props this_state)
    as [a|]; simpl.
  - case_bool_decide as Hzero; simpl.
    + split; [done |]. split; [done |]. split; [by intros ? [= <-] | done].
    + split; [done |]. split; [apply Math_min_le_l |]. split; [|done].
      intros ? [= <-] _. split; [done |]. split; [done |].
      etrans; [apply Math_min_le_r | apply Math_floor_le].
  - split; [done |]. split; [done |]. by split.
Qed.

(** 500 GiB asked on the sample page with 100 GiB free: 100 are stored. *)
Lemma storageSize_rule_witness :
  ∃ next,
    edit sample_permission sample_props sample_draft (K_storageSize (Qc_of_Z 500))
      = Returned next
    ∧ storageSize next ≤ convertToUnit (GiB_in_bytes 100) units.B units.GiB.
Proof.
  destruct (storageSize_rule sample_permission sample_props sample_draft
              (Qc_of_Z 500)) as (next & Hedit & _ & _ & Hclamp & _).
  exists next. split; [exact Hedit |].
  apply (Hclamp (GiB_in_bytes 100)); [reflexivity | discriminate].
Defined.

(** [find] over a filtered array answers with the first element that
    passes both tests. *)
Lemma find_filter_first {A} (P : A → Prop) `{!∀ x, Decision (P x)}
    (pred : A → bool) (front : list A) (x : A) (back : list A) :
  P x → pred x = true →
  (∀ y, y ∈ front → P y → pred y = false) →
  find pred (filter P (front ++ x :: back)) = Some x.
Proof.
  intros HP Hpred. induction front as [|y front IH]; intros Hfront; simpl.
  - rewrite filter_cons_True by done. simpl. by rewrite Hpred.
  - destruct (decide (P y)) as [Hy | Hy].
    + rewrite filter_cons_True by done. simpl.
      rewrite (Hfront y (list_elem_of_here _ _) Hy).
      apply IH. intros z Hz. by apply Hfront, list_elem_of_further.
    + rewrite filter_cons_False by done.
      apply IH. intros z Hz. by apply Hfront, list_elem_of_further.
Qed.

(** X13. The storage pool rule stores the chosen name and selects the first
    volume of the first pool of that name in the draft's connection: when
    that pool has volumes the name of its first volume is stored, and when
    it has an empty volume list or none the volume becomes [undefined], also
    if a later pool of that name has volumes. When the connection has no
    pool of that name (as for "NewVolume" and "NoStorage") the volume is
    [undefined]. A stored volume is always the first one of a pool of that
    name and connection. *)
Theorem storagePool_rule permission props (this_state : State) (value : jsstring) :
  ∃ next,
    edit permission props this_state (K_storagePool value) = Returned next
    ∧ storagePool next = value
    ∧ (∀ front pool back,
         storagePools props = front ++ pool :: back →
         pool_connectionName pool = connectionName this_state →
         pool_name pool = value →
         (∀ p, p ∈ front →
               pool_connectionName p = connectionName this_state →
               pool_name p ≠ value) →
         (∀ v rest, pool_volumes pool = Some (v :: rest) →
                    storageVolume next = Some (volume_name v))
         ∧ (pool_volumes pool = Some [] ∨ pool_volumes pool = None →
            storageVolume next = None))
    ∧ (∀ v, storageVolume next = Some v →
            ∃ pool rest,
              pool ∈ storagePools props
              ∧ pool_connectionName pool = connectionName this_state
              ∧ pool_name pool = value
              ∧ pool_volumes pool = Some ({| volume_name := v |} :: rest))
    ∧ ((∀ pool, pool ∈ storagePools props →
                pool_connectionName pool = connectionName this_state →
                pool_name pool ≠ value) →
       storageVolume next = None).
Proof.
  eexists. split; [reflexivity |]. simpl. split; [done |]. split; [|split].
  - intros front pool back Hpools Hconn Hname Hfront.
    rewrite Hpools.
    rewrite (find_filter_first
               (λ pool, pool_connectionName pool = connectionName this_state)
               (λ pool, bool_decide (pool_name pool = value)) front pool back);
      [| done | by apply bool_decide_eq_true_2 |].
    + simpl. split.
      * by intros v rest ->.
      * by intros [-> | ->].
    + intros p Hp Hpconn. apply bool_decide_eq_false_2. by apply Hfront.
  - intros v Hv. apply fmap_Some in Hv as ([v'] & Hhead & ->).
    apply bind_Some in Hhead as (vols & Hvols & Hhead).
    apply bind_Some in Hvols as (pool & Hfind & Hvols).
    apply find_Some in Hfind as [[? ?]%list_elem_of_filter Hpred].
    apply bool_decide_eq_true in Hpred.
    destruct vols as [|v'' rest]; [done |]. injection Hhead as ->.
    by exists pool, rest.
  - intros Hnone.
    assert (find (λ pool, bool_decide (pool_name pool = value))
              (filter (λ pool, pool_connectionName pool = connectionName this_state)
                      (storagePools props)) = None) as ->; [|done].
    apply find_None. intros pool [? ?]%list_elem_of_filter.
    apply bool_decide_eq_false_2. by apply Hnone.
Qed.

(** Picking the pool "default" selects its volume; going back to "NewVolume"
    clears the selection. *)
Lemma storagePool_rule_witness :
  ∃ picked next,
    edit sample_permission sample_props sample_draft (K_storagePool (lit "default"))
      = Returned picked
    ∧ storageVolume picked = Some (lit "disk0.qcow2")
    ∧ edit sample_permission sample_props picked (K_storagePool (lit "NewVolume"))
      = Returned next
    ∧ storageVolume next = None.
Proof.
  destruct (storagePool_rule sample_permission sample_props sample_draft
              (lit "default")) as (picked & Hpicked & _ & Hfirst & _).
  destruct (storagePool_rule sample_permission sample_props picked
              (lit "NewVolume")) as (next & Hnext & _ & _ & _ & Hnone).
  exists picked, next. split; [exact Hpicked |]. split.
  - destruct (Hfirst []
                {| pool_connectionName := lit "system";
                   pool_name := lit "default";
                   pool_target_path := lit "/var/lib/libvirt/images";
                   pool_available := GiB_in_bytes 100;
                   pool_volumes := Some [ {| volume_name := lit "disk0.qcow2" |} ] |}
                []) as [Hvolume _];
      [reflexivity | reflexivity | reflexivity
       | by intros p Hp%elem_of_nil |].
    apply (Hvolume {| volume_name := lit "disk0.qcow2" |} []). reflexivity.
  - split; [exact Hnext |]. apply Hnone.
    intros pool Hin _. vm_compute in Hin.
    apply elem_of_cons in Hin as [-> | Hin]; [discriminate |].
    by apply elem_of_nil in Hin.
Defined.

(** X14. The connection rule stores the new connection and never leaves a
    specific pool selected: afterwards the storage pool is "NewVolume" or
    "NoStorage", while the selected volume is kept as it was. A draft moved
    to the session connection does not come out with network boot: a network
    boot draft becomes a local media draft with an empty source; any other
    draft keeps its source type and source. *)
Theorem connectionName_rule permission props (this_state : State)
    (value : jsstring) :
  ∃ next,
    edit permission props this_state (K_connectionName value) = Returned next
    ∧ connectionName next = value
    ∧ (storagePool next = lit "NewVolume" ∨ storagePool next = lit "NoStorage")
    ∧ storageVolume next = storageVolume this_state
    ∧ (value = LIBVIRT_SESSION_CONNECTION → sourceType next ≠ PXE_SOURCE)
    ∧ (sourceType this_state = PXE_SOURCE → value = LIBVIRT_SESSION_CONNECTION →
       sourceType next = LOCAL_INSTALL_MEDIA_SOURCE ∧ source next = Some [])
    ∧ (sourceType this_state ≠ PXE_SOURCE ∨ value ≠ LIBVIRT_SESSION_CONNECTION →
       sourceType next = sourceType this_state ∧ source next = source this_state).
Proof.
  unfold edit, onValueChanged, onValueChanged_body, str_eqb. simpl.
  destruct (decide (sourceType this_state = PXE_SOURCE)) as [Hpxe | Hpxe];
    destruct (decide (value = LIBVIRT_SESSION_CONNECTION)) as [Hsession | Hsession].
  all: rewrite ?(bool_decide_eq_true_2 _ Hpxe), ?(bool_decide_eq_false_2 _ Hpxe),
         ?(bool_decide_eq_true_2 _ Hsession), ?(bool_decide_eq_false_2 _ Hsession).
  all: simpl.
  all: destruct (decide (storagePool this_state = lit "NewVolume")) as [Hnew | Hnew];
         rewrite ?(bool_decide_eq_true_2 _ Hnew), ?(bool_decide_eq_false_2 _ Hnew);
         simpl.
  all: try (destruct (decide (storagePool this_state = lit "NoStorage"))
              as [Hno | Hno];
            rewrite ?(bool_decide_eq_true_2 _ Hno), ?(bool_decide_eq_false_2 _ Hno);
            simpl).
  all: eexists; (split; [reflexivity |]); simpl.
  all: rewrite ?Hpxe.
  all: repeat split; try done; auto.
  all: try (intros _; discriminate).
  all: try (intros [? | ?]; done).
  all: exfalso; match goal with H : _ ∨ _ |- _ => by destruct H end.
Qed.

(** A network boot draft on the pool "default", moved to the session
    connection. *)
Lemma connectionName_rule_witness :
  ∃ next,
    edit sample_permission sample_props
      (set_storagePool (lit "default")
         (set_source (Some (lit "network=default"))
            (set_sourceType PXE_SOURCE sample_draft)))
      (K_connectionName LIBVIRT_SESSION_CONNECTION) = Returned next
    ∧ sourceType next = LOCAL_INSTALL_MEDIA_SOURCE
    ∧ source next = Some []
    ∧ storagePool next = lit "NewVolume".
Proof.
  destruct (connectionName_rule sample_permission sample_props
              (set_storagePool (lit "default")
                 (set_source (Some (lit "network=default"))
                    (set_sourceType PXE_SOURCE sample_draft)))
              LIBVIRT_SESSION_CONNECTION)
    as (next & Hedit & _ & _ & _ & _ & Hpxe & _).
  destruct (Hpxe eq_refl eq_refl) as [Htype Hsource].
  exists next. split; [exact Hedit |]. split; [exact Htype |].
  split; [exact Hsource |]. injection Hedit as <-. reflexivity.
Defined.

(** ** Selecting an OS *)

(** The draft after [onValueChanged('os', value)], field by field. *)
Lemma os_rule_result permission props (this_state : State) (value : OsInfo) :
  ∃ next,
    edit permission props this_state (K_os (Some value)) = Returned next
    ∧ os next
      = Some (set_profiles ((λ l, reverse (sort l)) <$> profiles value) value)
    ∧ profile next
      = match profiles value with
        | Some l => head (reverse (sort l))
        | None => profile this_state
        end
    ∧ minimumMemory next
      = (if truthy_num (ram (minimumResources value))
         then default 0 (ram (minimumResources value))
         else minimumMemory this_state)
    ∧ recommendedMemory next
      = (if truthy_num (ram (recommendedResources value))
         then ram (recommendedResources value) else None)
    ∧ minimumStorage next
      = (if truthy_num (storage (minimumResources value))
         then default 0 (storage (minimumResources value))
         else minimumStorage this_state)
    ∧ recommendedStorage next
      = (if truthy_num (storage (recommendedResources value))
         then storage (recommendedResources value) else None)
    ∧ (memorySize next, memorySizeUnit next)
      = (if truthy_num (ram (recommendedResources value)) then
           if bool_decide
                (Math_floor (convertToUnit
                               (default 0 (ram (recommendedResources value)))
                               units.B (memorySizeUnit this_state)) = 0)
           then (Math_floor (convertToUnit
                               (default 0 (ram (recommendedResources value)))
                               units.B units.MiB), units.MiB)
           else (Math_min
                   (Math_floor (convertToUnit
                                  (default 0 (ram (recommendedResources value)))
                                  units.B (memorySizeUnit this_state)))
                   (Math_floor (convertToUnit (nodeMaxMemory props) units.KiB
                                  (memorySizeUnit this_state))),
                 memorySizeUnit this_state)
         else (memorySize this_state, memorySizeUnit this_state))
    ∧ unattendedInstallation next
      = (if unattendedInstallable value then unattendedInstallation this_state
         else false)
    ∧ startVm next
      = (if unattendedInstallable value then startVm this_state else true)
    ∧ validate next = validate this_state
    ∧ inProgress next = inProgress this_state
    ∧ vmName next = vmName this_state
    ∧ connectionName next = connectionName this_state
    ∧ sourceType next = sourceType this_state
    ∧ source next = source this_state.
Proof.
  unfold edit, onValueChanged, onValueChanged_body.
  cbn [profiles set_profiles minimumResources recommendedResources
       unattendedInstallable].
  destruct (profiles value) as [l|];
    destruct (truthy_num (ram (minimumResources value)));
    destruct (truthy_num (ram (recommendedResources value)));
    destruct (truthy_num (storage (minimumResources value)));
    destruct (truthy_num (storage (recommendedResources value)));
    destruct (unattendedInstallable value).
  all: repeat match goal with
       | |- context [bool_decide (Math_floor ?x = 0)] =>
           destruct (bool_decide (Math_floor x = 0))
       end.
  all: eexists; (split; [reflexivity |]); by repeat split.
Qed.

(** [str_leb] is the order of the code units, a total order on strings. *)
Lemma str_leb_refl a : str_leb a a = true.
Proof.
  induction a as [|x a IH]; simpl; [done |].
  by rewrite N.eqb_refl, IH, orb_true_r.
Qed.

Lemma str_leb_total a b : str_leb a b = true ∨ str_leb b a = true.
Proof.
  revert b. induction a as [|x a IH]; intros [|y b]; simpl; auto.
  destruct (N.ltb_spec x y) as [Hlt | Hge]; [by left |].
  destruct (N.ltb_spec y x) as [Hlt' | Hge']; [by right |].
  assert (x = y) as -> by lia. rewrite N.eqb_refl. simpl. apply IH.
Qed.

Lemma str_leb_trans a b c :
  str_leb a b = true → str_leb b c = true → str_leb a c = true.
Proof.
  revert b c. induction a as [|x a IH]; intros [|y b] [|z c]; simpl; try done.
  rewrite !orb_true_iff, !andb_true_iff, !N.ltb_lt, !N.eqb_eq.
  intros [Hxy | [-> Hab]] [Hyz | [-> Hbc]].
  - left. lia.
  - by left.
  - by left.
  - right. split; [done |]. by eapply IH.
Qed.

Lemma str_leb_antisym a b :
  str_leb a b = true → str_leb b a = true → a = b.
Proof.
  revert b. induction a as [|x a IH]; intros [|y b]; simpl; try done.
  rewrite !orb_true_iff, !andb_true_iff, !N.ltb_lt, !N.eqb_eq.
  intros [Hxy | [-> Hab]] [Hyx | [Heq Hba]]; try lia.
  f_equal. by apply IH.
Qed.

Lemma insert_sorted_perm x l : insert_sorted x l ≡ₚ x :: l.
Proof.
  induction l as [|y l IH]; simpl; [done |].
  destruct (str_leb x y); [done |]. rewrite IH. apply Permutation_swap.
Qed.

Lemma sort_perm l : sort l ≡ₚ l.
Proof.
  induction l as [|x l IH]; simpl; [done |].
  unfold sort in *. simpl. by rewrite insert_sorted_perm, IH.
Qed.

Lemma insert_sorted_sorted x l :
  StronglySorted (λ a b, str_leb a b = true) l →
  StronglySorted (λ a b, str_leb a b = true) (insert_sorted x l).
Proof.
  induction 1 as [|y l Hsorted IH Hall]; simpl.
  - by repeat constructor.
  - destruct (str_leb x y) eqn:Hxy.
    + constructor; [by constructor |]. constructor; [done |].
      eapply Forall_impl; [exact Hall |]. intros z Hyz. simpl in *.
      by eapply str_leb_trans.
    + constructor; [done |].
      rewrite insert_sorted_perm. constructor; [|done].
      by destruct (str_leb_total x y); [congruence |].
Qed.

Lemma sort_sorted l : StronglySorted (λ a b, str_leb a b = true) (sort l).
Proof.
  induction l as [|x l IH]; [constructor |].
  by apply insert_sorted_sorted.
Qed.

Lemma reverse_sorted l :
  StronglySorted (λ a b, str_leb a b = true) l →
  StronglySorted (λ a b, str_leb b a = true) (reverse l).
Proof.
  induction 1 as [|x s Hs IH Hall]; [constructor |].
  rewrite reverse_cons. apply StronglySorted_app_2; [|exact IH | repeat constructor].
  intros a b Ha ->%list_elem_of_singleton.
  rewrite elem_of_reverse in Ha. rewrite Forall_forall in Hall. simpl.
  by apply Hall.
Qed.

(** The first element of the reordered list is the greatest profile. *)
Lemma head_reverse_sort_greatest l p :
  head (reverse (sort l)) = Some p →
  p ∈ l ∧ ∀ q, q ∈ l → str_leb q p = true.
Proof.
  rewrite head_reverse. intros Hlast.
  apply last_Some in Hlast as [front Hsort].
  split.
  - rewrite <- sort_perm, Hsort. set_solver.
  - intros q Hq. rewrite <- sort_perm, Hsort in Hq.
    apply elem_of_app in Hq as [Hq | ->%list_elem_of_singleton];
      [|apply str_leb_refl].
    pose proof (sort_sorted l) as Hsorted. rewrite Hsort in Hsorted.
    apply (StronglySorted_app_1_elem_of (λ a b, str_leb a b = true)
             front [p] q p Hsorted); [done | set_solver].
Qed.

(** X15. Selecting an OS with a non-empty list of install profiles makes
    the greatest profile, in the order of their code units, the draft's
    profile ("jeos" before "desktop"); the OS is stored with its profiles
    rearranged, the same profiles from greatest to least. An OS with an
    empty list clears the profile; an OS without a list keeps the profile of
    the draft as it was. *)
Theorem os_rule_profile permission props (this_state : State) (value : OsInfo) :
  ∃ next,
    edit permission props this_state (K_os (Some value)) = Returned next
    ∧ (∀ l, profiles value = Some l →
         (∃ stored,
            os next = Some stored
            ∧ shortId stored = shortId value
            ∧ ∃ l', profiles stored = Some l'
                    ∧ l' ≡ₚ l
                    ∧ StronglySorted (λ a b, str_leb b a = true) l')
         ∧ (l = [] → profile next = None)
         ∧ (l ≠ [] →
            ∃ p, profile next = Some p ∧ p ∈ l
                 ∧ ∀ q, q ∈ l → str_leb q p = true))
    ∧ (profiles value = None →
       profile next = profile this_state ∧ os next = Some value).
Proof.
  destruct (os_rule_result permission props this_state value)
    as (next & Hedit & Hos & Hprofile & _).
  exists next. split; [done |]. split.
  - intros l Hl. rewrite Hl in Hos, Hprofile. split; [|split].
    + eexists. split; [exact Hos |]. split; [done |]. simpl.
      exists (reverse (sort l)). split; [done |].
      split; [by rewrite reverse_Permutation, sort_perm |].
      apply reverse_sorted, sort_sorted.
    + intros ->. by rewrite Hprofile.
    + intros Hne. rewrite Hprofile.
      destruct (head (reverse (sort l))) as [p|] eqn:Hhead.
      * exists p. split; [done |]. by apply head_reverse_sort_greatest.
      * exfalso. apply head_None in Hhead.
        apply (f_equal reverse) in Hhead. rewrite reverse_involutive in Hhead.
        simpl in Hhead. apply Hne, Permutation_nil_r.
        by rewrite <- sort_perm, Hhead.
  - intros Hnone. rewrite Hnone in Hos, Hprofile. split; [done |].
    rewrite Hos. f_equal. destruct value. simpl in *. by subst.
Qed.

(** The sample OS lists "desktop" before "jeos"; the draft gets "jeos". *)
Lemma os_rule_profile_witness :
  ∃ next,
    edit sample_permission sample_props sample_named (K_os (Some sample_os))
      = Returned next
    ∧ profile next = Some (lit "jeos").
Proof.
  destruct (os_rule_profile sample_permission sample_props sample_named
              sample_os) as (next & Hedit & Hsome & _).
  exists next. split; [exact Hedit |].
  destruct (Hsome [lit "desktop"; lit "jeos"] eq_refl) as (_ & _ & Hmax).
  destruct Hmax as (p & Hp & Hin & Hmax); [discriminate |].
  rewrite Hp. f_equal.
  apply elem_of_cons in Hin as [-> | Hin].
  - specialize (Hmax (lit "jeos")). discriminate Hmax.
    apply list_elem_of_further, list_elem_of_here.
  - apply elem_of_cons in Hin as [-> | Hin]; [reflexivity |].
    by apply elem_of_nil in Hin.
Defined.

(** X16. Selecting an OS overwrites the draft's minimum memory and storage
    only when the OS states one (a number other than zero): after an OS
    without a stated minimum the minimum of the previous selection is still
    there, while the recommended values are cleared. *)
Theorem os_rule_resources permission props (this_state : State) (value : OsInfo) :
  ∃ next,
    edit permission props this_state (K_os (Some value)) = Returned next
    ∧ (∀ r, ram (minimumResources value) = Some r → r ≠ 0 →
            minimumMemory next = r)
    ∧ (ram (minimumResources value) = None
       ∨ ram (minimumResources value) = Some 0 →
       minimumMemory next = minimumMemory this_state)
    ∧ (∀ r, storage (minimumResources value) = Some r → r ≠ 0 →
            minimumStorage next = r)
    ∧ (storage (minimumResources value) = None
       ∨ storage (minimumResources value) = Some 0 →
       minimumStorage next = minimumStorage this_state)
    ∧ (∀ r, ram (recommendedResources value) = Some r → r ≠ 0 →
            recommendedMemory next = Some r)
    ∧ (ram (recommendedResources value) = None
       ∨ ram (recommendedResources value) = Some 0 →
       recommendedMemory next = None)
    ∧ (∀ r, storage (recommendedResources value) = Some r → r ≠ 0 →
            recommendedStorage next = Some r)
    ∧ (storage (recommendedResources value) = None
       ∨ storage (recommendedResources value) = Some 0 →
       recommendedStorage next = None).
Proof.
  destruct (os_rule_result permission props this_state value)
    as (next & Hedit & _ & _ & Hmm & Hrm & Hms & Hrs & _).
  exists next. split; [done |].
  rewrite Hmm, Hrm, Hms, Hrs. clear.
  repeat split.
  all: try (intros r -> Hr; simpl; by rewrite bool_decide_eq_false_2).
  all: intros [-> | ->]; simpl; try done.
Qed.

(** The draft with the 2 GiB minimum of "fedora32", then an OS that states
    none: the 2 GiB stay as the draft's minimum. *)
Lemma os_rule_resources_witness :
  ∃ next,
    edit sample_permission sample_props sample_draft
      (K_os (Some sample_os_attended)) = Returned next
    ∧ minimumMemory next = GiB_in_bytes 2
    ∧ recommendedMemory next = None.
Proof.
  destruct (os_rule_resources sample_permission sample_props sample_draft
              sample_os_attended)
    as (next & Hedit & _ & Hstale & _ & _ & _ & Hcleared & _).
  exists next. split; [exact Hedit |].
  split; [apply Hstale | apply Hcleared]; by left.
Defined.

Lemma Math_floor_eq_0 x : Math_floor x = 0 ↔ 0 ≤ x ∧ x < 1.
Proof.
  split.
  - intros H. pose proof (Math_floor_le x) as Hle.
    pose proof (Math_floor_lt x) as Hlt. rewrite H in Hle, Hlt.
    by rewrite Qcplus_0_l in Hlt.
  - intros [Hle Hlt]. unfold Math_floor.
    assert (Qfloor x = 0%Z) as ->; [|by apply Qc_is_canon].
    apply Z.le_antisymm.
    + apply Z.lt_succ_r. change (Z.succ 0) with 1%Z.
      rewrite Zlt_Qlt. eapply Qle_lt_trans; [apply Qfloor_le | exact Hlt].
    + change 0%Z with (Qfloor 0). by apply Qfloor_resp_le.
Qed.

Lemma convertToUnit_unit u : convertToUnit (units.bytes u) units.B u = 1.
Proof.
  unfold convertToUnit.
  replace (units.bytes units.B) with (1 : Qc) by (by apply Qc_is_canon).
  field. apply units_bytes_ne_0.
Qed.

Lemma convertToUnit_lt_iff x y u1 u2 :
  x < y ↔ convertToUnit x u1 u2 < convertToUnit y u1 u2.
Proof.
  split; [apply convertToUnit_lt |]. intros H.
  rewrite <- (convertToUnit_round_trip x u1 u2),
          <- (convertToUnit_round_trip y u1 u2).
  by apply convertToUnit_lt.
Qed.

(** X17. Selecting an OS that recommends an amount of memory (other than
    zero) sets the draft's memory. If the recommendation, rounded down,
    is zero in the current unit, the unit becomes MiB and the memory the
    recommendation in MiB rounded down, which is zero again exactly when the
    recommendation is below 1 MiB; in this case the node maximum is not
    applied. Otherwise the unit stays and the memory is the rounded
    recommendation, cut to the node maximum. Without a recommendation memory
    and unit stay as they were. *)
Theorem os_rule_memory permission props (this_state : State) (value : OsInfo) :
  ∃ next,
    edit permission props this_state (K_os (Some value)) = Returned next
    ∧ (∀ r, ram (recommendedResources value) = Some r → r ≠ 0 →
         (Math_floor (convertToUnit r units.B (memorySizeUnit this_state)) = 0 →
          memorySizeUnit next = units.MiB
          ∧ memorySize next = Math_floor (convertToUnit r units.B units.MiB)
          ∧ (memorySize next = 0 ↔ r < units.bytes units.MiB))
         ∧ (Math_floor (convertToUnit r units.B (memorySizeUnit this_state)) ≠ 0 →
            memorySizeUnit next = memorySizeUnit this_state
            ∧ memorySize next
              = Math_min
                  (Math_floor (convertToUnit r units.B (memorySizeUnit this_state)))
                  (Math_floor (convertToUnit (nodeMaxMemory props) units.KiB
                                 (memorySizeUnit this_state)))
            ∧ memorySize next
              ≤ convertToUnit (nodeMaxMemory props) units.KiB
                  (memorySizeUnit next)))
    ∧ (ram (recommendedResources value) = None
       ∨ ram (recommendedResources value) = Some 0 →
       memorySize next = memorySize this_state
       ∧ memorySizeUnit next = memorySizeUnit this_state).
Proof.
  destruct (os_rule_result permission props this_state value)
    as (next & Hedit & _ & _ & _ & _ & _ & _ & Hmemory & _).
  exists next. split; [done |]. split.
  - intros r Hr Hne. rewrite Hr in Hmemory. simpl in Hmemory.
    rewrite (bool_decide_eq_false_2 _ Hne) in Hmemory. simpl in Hmemory.
    split.
    + intros Hzero. rewrite (bool_decide_eq_true_2 _ Hzero) in Hmemory.
      injection Hmemory as -> ->. split; [done |]. split; [done |].
      rewrite Math_floor_eq_0.
      rewrite <- (convertToUnit_unit units.MiB) at 1.
      rewrite <- convertToUnit_lt_iff.
      split; [by intros [_ ?] |]. intros Hlt. split; [|done].
      apply Math_floor_eq_0 in Hzero as [Hpos _].
      destruct (Qclt_le_dec r 0) as [Hneg | ?]; [|by apply convertToUnit_le
        with (u1 := units.B) (u2 := units.MiB) in q; rewrite convertToUnit_0 in q].
      exfalso. apply (Qclt_not_le _ _ Hneg).
      rewrite <- (convertToUnit_round_trip r units.B (memorySizeUnit this_state)).
      rewrite <- (convertToUnit_0 (memorySizeUnit this_state) units.B).
      by apply convertToUnit_le.
    + intros Hnonzero. rewrite (bool_decide_eq_false_2 _ Hnonzero) in Hmemory.
      injection Hmemory as -> ->. split; [done |]. split; [done |].
      etrans; [apply Math_min_le_r | apply Math_floor_le].
  - intros Hnone.
    assert (truthy_num (ram (recommendedResources value)) = false) as Hfalse.
    { destruct Hnone as [-> | ->]; done. }
    rewrite Hfalse in Hmemory. by injection Hmemory as -> ->.
Qed.

(** A recommendation of 512 MiB on a draft that counts in GiB: the draft
    switches to 512 MiB. *)
Lemma os_rule_memory_witness :
  ∃ next,
    edit sample_permission sample_props sample_draft
      (K_os (Some {| os_id := lit "tiny"; shortId := lit "tiny";
                     minimumResources := {| ram := None; storage := None |};
                     recommendedResources :=
                       {| ram := Some (Qc_of_Z (512 * 1024 ^ 2));
                          storage := None |};
                     profiles := None; unattendedInstallable := false |}))
      = Returned next
    ∧ memorySizeUnit next = units.MiB
    ∧ memorySize next ≠ 0.
Proof.
  destruct (os_rule_memory sample_permission sample_props sample_draft
      {| os_id := lit "tiny"; shortId := lit "tiny";
         minimumResources := {| ram := None; storage := None |};
         recommendedResources :=
           {| ram := Some (Qc_of_Z (512 * 1024 ^ 2)); storage := None |};
         profiles := None; unattendedInstallable := false |})
    as (next & Hedit & Hrec & _).
  exists next. split; [exact Hedit |].
  destruct (Hrec (Qc_of_Z (512 * 1024 ^ 2)) eq_refl) as [Hswitch _];
    [discriminate |].
  destruct Hswitch as (Hunit & _ & Hzero); [by apply Qc_is_canon |].
  split; [exact Hunit |]. intros H. apply Hzero in H. discriminate H.
Defined.

(** ** What every edit keeps *)

(** The cases of [onValueChanged] other than [os], opened up. *)
Ltac open_edit H :=
  unfold edit, onValueChanged, onValueChanged_body in H;
  cbn [mbind mret outcome_bind outcome_ret] in H;
  repeat match type of H with
         | context [if ?b then _ else _] => destruct b
         end;
  cbn [mbind mret outcome_bind outcome_ret] in H;
  try discriminate H;
  injection H as <-.

(** X18. Unattended installation implies "start the VM": every edit keeps
    this, except an edit of [startVm] itself, which the dialog only sends
    while its checkbox is enabled, that is while unattended installation is
    off. *)
Theorem edit_keeps_startVm permission props (this_state next : State) kv :
  edit permission props this_state kv = Returned next →
  (∀ value, kv = K_startVm value → startVmCheckbox_disabled this_state = false) →
  (unattendedInstallation this_state = true → startVm this_state = true) →
  unattendedInstallation next = true → startVm next = true.
Proof.
  intros Hedit Hcheckbox Hinv.
  destruct kv as [| | | | | | | | |b| |[value|]| | | | |].
  12: { destruct (os_rule_result permission props this_state value)
          as (next' & Hedit' & _ & _ & _ & _ & _ & _ & _ & Hun & Hstart & _).
        rewrite Hedit in Hedit'. injection Hedit' as <-.
        rewrite Hun, Hstart. by destruct (unattendedInstallable value). }
  10: { specialize (Hcheckbox b eq_refl). unfold startVmCheckbox_disabled in Hcheckbox.
        open_edit Hedit. simpl. congruence. }
  all: open_edit Hedit; simpl; auto.
Qed.

(** With unattended installation on, picking an OS keeps the VM set to
    start. *)
Lemma edit_keeps_startVm_witness :
  ∃ next,
    edit sample_permission sample_props
      (set_unattendedInstallation true sample_draft) (K_os (Some sample_os))
      = Returned next
    ∧ startVm next = true.
Proof.
  destruct (os_rule_result sample_permission sample_props
              (set_unattendedInstallation true sample_draft) sample_os)
    as (next & Hedit & _ & _ & _ & _ & _ & _ & _ & Hun & _).
  exists next. split; [exact Hedit |].
  apply (edit_keeps_startVm sample_permission sample_props
           (set_unattendedInstallation true sample_draft) next
           (K_os (Some sample_os)) Hedit).
  - intros value H. discriminate H.
  - intros _. reflexivity.
  - rewrite Hun. reflexivity.
Defined.

(** X19. No edit touches the two flags of the submission, so once
    validation errors are shown they stay shown while the user edits; the
    name changes only through the name rule, the connection only through the
    connection rule. *)
Theorem edit_frame permission props (this_state next : State) kv :
  edit permission props this_state kv = Returned next →
  validate next = validate this_state
  ∧ inProgress next = inProgress this_state
  ∧ ((∀ value, kv ≠ K_vmName value) → vmName next = vmName this_state)
  ∧ ((∀ value, kv ≠ K_connectionName value) →
     connectionName next = connectionName this_state).
Proof.
  intros Hedit.
  destruct kv as [v| | | | | | | | | |v|[value|]| | | | |].
  12: { destruct (os_rule_result permission props this_state value)
          as (next' & Hedit' & _ & _ & _ & _ & _ & _ & _ & _ & _ & H).
        rewrite Hedit in Hedit'. injection Hedit' as <-.
        by destruct H as (-> & -> & -> & -> & _). }
  all: open_edit Hedit; simpl; repeat split; try done.
  all: intros H; by destruct (H v).
Qed.

(** A rejected submission followed by an edit of the name: the errors are
    still shown. *)
Lemma edit_frame_witness :
  ∃ next,
    edit sample_permission sample_props
      (set_validate true sample_state) (K_vmName (lit "web")) = Returned next
    ∧ validate next = true.
Proof.
  eexists. split; [reflexivity |].
  apply (edit_frame sample_permission sample_props
           (set_validate true sample_state) _ (K_vmName (lit "web")) eq_refl).
Defined.

(** X20. [onValueChanged] throws for exactly one call, [('os', undefined)],
    and it never calls itself more than one level deep: whatever stands in
    for the calls at the third level is never reached. *)
Theorem onValueChanged_depth permission props (this_state pending : State) kv :
  (onValueChanged permission props this_state kv pending = TypeError ↔
   kv = K_os None)
  ∧ ∀ deeper,
      onValueChanged_body permission props this_state
        (onValueChanged_body permission props this_state deeper) kv pending
      = onValueChanged permission props this_state kv pending.
Proof.
  split.
  - unfold onValueChanged, onValueChanged_body.
    destruct kv as [| | | | | | | | | | |[value|]| | | | |];
      cbn [mbind mret outcome_bind outcome_ret].
    all: repeat match goal with
         | |- context [if ?b then _ else _] => destruct b
         end; cbn [mbind mret outcome_bind outcome_ret].
    all: by split.
  - intros deeper. unfold onValueChanged.
    destruct kv as [| | | | | | | | | | |[value|]| | | | |]; reflexivity.
Qed.

(** ** The dialog as it opens *)

Lemma Math_floor_integer (n : Z) : Math_floor (Qc_of_Z n) = Qc_of_Z n.
Proof. unfold Math_floor. f_equal. apply Qfloor_Z. Qed.

Lemma Math_floor_mono x y : x ≤ y → Math_floor x ≤ Math_floor y.
Proof.
  intros H. unfold Math_floor, Qcle. simpl. rewrite <- Zle_Qle.
  by apply Qfloor_resp_le.
Qed.

Lemma convertToUnit_KiB_GiB x :
  convertToUnit x units.KiB units.GiB = x / Qc_of_Z (1024 ^ 2).
Proof.
  unfold convertToUnit.
  replace (units.bytes units.KiB) with (Qc_of_Z 1024) by (by apply Qc_is_canon).
  replace (units.bytes units.GiB) with (Qc_of_Z 1024 * Qc_of_Z (1024 ^ 2))
    by (by apply Qc_is_canon).
  field. split; discriminate.
Qed.

Lemma initialState_memorySize mode downloadOSSupported nodeMaxMemory :
  0 ≤ nodeMaxMemory →
  memorySize (initialState mode downloadOSSupported nodeMaxMemory)
  = if bool_decide (Qc_of_Z (1024 ^ 2) ≤ nodeMaxMemory) then 1 else 0.
Proof.
  intros Hpos. simpl.
  replace (convertToUnit (Qc_of_Z 1024) units.MiB units.GiB) with (1 : Qc)
    by (by apply Qc_is_canon).
  assert (0 < Qc_of_Z (1024 ^ 2)) as Hden by done.
  case_bool_decide as Hbig.
  - unfold Math_min. rewrite bool_decide_eq_true_2; [done |].
    replace (1 : Qc) with (Math_floor (Qc_of_Z 1)) at 1
      by (rewrite Math_floor_integer; by apply Qc_is_canon).
    apply Math_floor_mono.
    replace (Qc_of_Z 1)
      with (convertToUnit (Qc_of_Z (1024 ^ 2)) units.KiB units.GiB)
      by (by apply Qc_is_canon).
    by apply convertToUnit_le.
  - assert (Math_floor (convertToUnit nodeMaxMemory units.KiB units.GiB) = 0)
      as ->.
    { apply Math_floor_eq_0. split.
      - rewrite <- (convertToUnit_0 units.KiB units.GiB).
        by apply convertToUnit_le.
      - replace (1 : Qc)
          with (convertToUnit (Qc_of_Z (1024 ^ 2)) units.KiB units.GiB)
          by (by apply Qc_is_canon).
        apply convertToUnit_lt. by apply Qclt_nge. }
    unfold Math_min. rewrite bool_decide_eq_false_2; [done |].
    by apply Qclt_not_le.
Qed.

(** X21. The dialog opens with 1 GiB of memory on a host with at least
    1 GiB (the node maximum is in KiB) and with 0 GiB on a smaller one. Its
    first validation always reports the name and the OS; it reports the
    memory exactly on the smaller host, and the source unless the dialog
    opened on "download an OS". *)
Theorem initialState_validation permission props mode downloadOSSupported
    nodeMaxMemory :
  0 ≤ nodeMaxMemory →
  (memorySize (initialState mode downloadOSSupported nodeMaxMemory) = 1 ↔
   Qc_of_Z (1024 ^ 2) ≤ nodeMaxMemory)
  ∧ (memorySize (initialState mode downloadOSSupported nodeMaxMemory) = 0 ↔
     nodeMaxMemory < Qc_of_Z (1024 ^ 2))
  ∧ ∃ validationFailed,
      validateParams permission
        (validated props (initialState mode downloadOSSupported nodeMaxMemory))
        = Returned validationFailed
      ∧ is_Some (validationFailed !! "vmName")
      ∧ is_Some (validationFailed !! "os")
      ∧ (is_Some (validationFailed !! "memory") ↔
         nodeMaxMemory < Qc_of_Z (1024 ^ 2))
      ∧ (is_Some (validationFailed !! "source") ↔
         ¬ (mode = lit "create" ∧ downloadOSSupported = true)).
Proof.
  intros Hpos.
  pose proof (initialState_memorySize mode downloadOSSupported nodeMaxMemory Hpos)
    as Hmem.
  assert (memorySize (initialState mode downloadOSSupported nodeMaxMemory) = 0 ↔
          nodeMaxMemory < Qc_of_Z (1024 ^ 2)) as Hzero.
  { rewrite Hmem. case_bool_decide as Hbig.
    - split; [done |]. intros Hlt. by apply Qclt_not_le in Hlt.
    - split; [intros _; by apply Qclt_nge | done]. }
  split; [|split; [exact Hzero |]].
  { rewrite Hmem. case_bool_decide as Hbig; by split. }
  clear Hmem.
  destruct (validateParams_returns permission
              (validated props (initialState mode downloadOSSupported nodeMaxMemory)))
    as [Hret _].
  destruct Hret as [validationFailed Hret]; [intros H; discriminate H |].
  exists validationFailed. split; [done |].
  apply validateParams_entries in Hret as (-> & -> & -> & -> & _).
  split; [eexists; reflexivity |]. split; [eexists; reflexivity |]. split.
  - rewrite <- Hzero. unfold memory_failure.
    cbn [draft validated os initialState].
    case_bool_decide as Hm;
      [split; [intros _; exact Hm | intros _; by eexists] |].
    split; [by intros [? ?] | intros H; by destruct Hm].
  - rewrite source_failure_empty by (right; exists []; by split).
    cbn [draft validated sourceType initialState]. unfold str_eqb.
    destruct (decide (mode = lit "create")) as [-> | Hmode].
    + rewrite (bool_decide_eq_true_2 (lit "create" = lit "create")) by done.
      destruct downloadOSSupported; simpl.
      * split; [by intros [? ?] | intros H; destruct H; by split].
      * split; [by intros _ [_ ?] | intros _; by eexists].
    + rewrite (bool_decide_eq_false_2 _ Hmode). simpl.
      split; [by intros _ [? _] | intros _; by eexists].
Qed.

(** A host with half a GiB: the dialog opens with 0 GiB and the first
    validation reports the memory. *)
Lemma initialState_validation_witness :
  memorySize (initialState (lit "create") true (Qc_of_Z (512 * 1024))) = 0
  ∧ ∃ validationFailed,
      validateParams sample_permission
        (validated sample_props
           (initialState (lit "create") true (Qc_of_Z (512 * 1024))))
        = Returned validationFailed
      ∧ is_Some (validationFailed !! "memory").
Proof.
  destruct (initialState_validation sample_permission sample_props
              (lit "create") true (Qc_of_Z (512 * 1024)))
    as (_ & Hzero & validationFailed & Hret & _ & _ & Hmemory & _).
  { discriminate. }
  split; [by apply Hzero |].
  exists validationFailed. split; [exact Hret |]. by apply Hmemory.
Defined.

(** ** The name rule and the emptiness check *)

(** X22. A name that went through the name rule is empty after trimming
    only if the raw text had no space and nothing but other white space: a
    raw name of spaces is stored as underscores and passes the emptiness
    check. The rule keeps the length and, applied to its own result, changes
    nothing. *)
Theorem vmName_rule_trim permission props (this_state : State) (raw : jsstring) :
  ∃ next,
    edit permission props this_state (K_vmName raw) = Returned next
    ∧ (trim (vmName next) = [] ↔
       Forall (λ c, isWhiteSpace c = true ∧ c ≠ 32%N) raw)
    ∧ length (vmName next) = length raw
    ∧ edit permission props next (K_vmName (vmName next)) = Returned next.
Proof.
  eexists. split; [reflexivity |]. simpl.
  change (lit "_") with [95%N]. rewrite !join_split_replace.
  split; [|split].
  - rewrite trim_nil, Forall_fmap. apply Forall_proper; [|done].
    intros c. simpl. destruct (c =? 32)%N eqn:Hc.
    + apply N.eqb_eq in Hc as ->. split; [done | by intros [_ ?]].
    + apply N.eqb_neq in Hc. by split; [|intros [? _]].
  - by rewrite length_fmap.
  - rewrite <- list_fmap_compose.
    assert (∀ l : list N,
              ((λ c, if (c =? 32)%N then 95%N else c)
               ∘ (λ c, if (c =? 32)%N then 95%N else c)) <$> l
              = (λ c, if (c =? 32)%N then 95%N else c) <$> l) as ->; [|done].
    intros l. apply list_fmap_ext. intros _ c _. simpl.
    by destruct (c =? 32)%N eqn:Hc; [|rewrite Hc].
Qed.

(** Three spaces are stored as three underscores, which is a name. *)
Lemma vmName_rule_trim_witness :
  ∃ next,
    edit sample_permission sample_props sample_state (K_vmName (lit "   "))
      = Returned next
    ∧ trim (vmName next) ≠ [].
Proof.
  destruct (vmName_rule_trim sample_permission sample_props sample_state
              (lit "   ")) as (next & Hedit & Hiff & _).
  exists next. split; [exact Hedit |].
  intros H. apply Hiff in H. inversion H as [|? ? [_ Hne]]. by apply Hne.
Defined.

(** ** The memory row and the memory rule *)



(** ** The button that opens the dialog *)

(** X24. Once the component is unmounted, no run of [open] and [close]
    (or of a repeated unmount) changes it: the dialog is not shown again and
    not hidden either. Before that, every [open] shows it and every [close]
    hides it. *)
Theorem Action_unmounted (a : Action) (events : list ActionEvent) :
  (isClosed a = true → Action_run a events = a)
  ∧ (isClosed a = false →
     showModal (Action_step a open_) = true
     ∧ showModal (Action_step a close_) = false
     ∧ Action_run a (componentWillUnmount :: events)
       = {| showModal := showModal a; isClosed := true |}).
Proof.
  assert (∀ a' evs, isClosed a' = true → Action_run a' evs = a') as Hfrozen.
  { intros a' evs. revert a'. unfold Action_run.
    induction evs as [|e evs IH]; intros a' Hclosed; [done |].
    simpl. assert (Action_step a' e = a') as ->; [|by apply IH].
    destruct a' as [shown closed]. simpl in Hclosed. subst.
    by destruct e. }
  split; [apply Hfrozen |].
  intros Hopen. unfold Action_step at 1 2. rewrite Hopen. simpl.
  split; [done |]. split; [done |].
  change (Action_run (Action_step a componentWillUnmount) events
          = {| showModal := showModal a; isClosed := true |}).
  by apply Hfrozen.
Qed.

(** Opened, unmounted, then "closed": the modal flag is still set. *)
Lemma Action_unmounted_witness :
  showModal (Action_run Action_initial [open_; componentWillUnmount; close_])
  = true.
Proof.
  destruct (Action_unmounted (Action_step Action_initial open_) [close_])
    as [_ Hmounted].
  change (Action_run Action_initial [open_; componentWillUnmount; close_])
    with (Action_run (Action_step Action_initial open_)
            (componentWillUnmount :: [close_])).
  destruct (Hmounted eq_refl) as (_ & _ & ->). reflexivity.
Defined.
